(** * Multi-agent routing graphs: supervisor, network and hierarchical topologies

    A shallow embedding of the three graph definitions of [enrichment_agent]
    ([graph.py], [network_graph.py], [hierarchical_graph.py]) and of the loop
    that drives a shared conversation state through them, followed by the
    properties of the routing that the specification states. *)

From stdpp Require Import base option list gmap strings fin_maps.
From Stdlib Require Import Ascii Lia.

(** ** Python strings

    A [str] is modelled by its UTF-8 bytes.  Substring search and replacement
    on well-formed UTF-8 agree with the same operations on code points, so
    [in] and [replace] are written on bytes.  [strip], [lower] and [upper]
    depend on the interpreter's Unicode tables; they are an interface of the
    model, with an instance that is exact on ASCII text. *)

Module PyStr.

(** [sub in s] for two strings. *)
Fixpoint contains (sub s : string) : bool :=
  String.prefix sub s ||
  match s with
  | EmptyString => false
  | String _ s' => contains sub s'
  end.

(** Left-to-right scan of [s.replace(old, "")]: [skip] counts the bytes of
    a match that are still to be dropped. *)
Fixpoint erase_from (old : string) (skip : nat) (s : string) : string :=
  match s with
  | EmptyString => EmptyString
  | String c s' =>
      match skip with
      | S k => erase_from old k s'
      | O =>
          if String.prefix old s
          then erase_from old (String.length old - 1) s'
          else String c (erase_from old 0 s')
      end
  end.

(** [s.replace(old, "")]; with an empty [old] Python returns [s]. *)
Definition erase (old s : string) : string :=
  match old with
  | EmptyString => s
  | _ => erase_from old 0 s
  end.

(** [occurs c s]: the character [c] is one of the characters of [s]. *)
Fixpoint occurs (c : ascii) (s : string) : bool :=
  match s with
  | EmptyString => false
  | String b s' => bool_decide (b = c) || occurs c s'
  end.

(** [x in l] for a list of strings. *)
Definition member (x : string) (l : list string) : bool :=
  bool_decide (x ∈ l).

(** [any(keyword in text for keyword in keywords)]. *)
Definition any_in (keywords : list string) (text : string) : bool :=
  existsb (fun keyword => contains keyword text) keywords.

Class Methods := {
  strip : string -> string;
  lower : string -> string;
  upper : string -> string
}.

(** [strip] only removes characters at the two ends: what it returns lies
    inside its argument. *)
Definition strips_inside (M : Methods) : Prop :=
  forall s, exists l r, s = l +:+ strip s +:+ r.

(** *** The ASCII instance *)

(** Whitespace of [str.strip()] below code point 128. *)
Definition is_space (c : ascii) : bool :=
  match c with
  | "009" | "010" | "011" | "012" | "013"
  | "028" | "029" | "030" | "031" | " " => true
  | _ => false
  end%char.

Fixpoint lstrip (s : string) : string :=
  match s with
  | EmptyString => EmptyString
  | String c s' => if is_space c then lstrip s' else s
  end.

Fixpoint rstrip (s : string) : string :=
  match s with
  | EmptyString => EmptyString
  | String c s' =>
      match rstrip s' with
      | EmptyString => if is_space c then EmptyString else String c EmptyString
      | r => String c r
      end
  end.

Definition ascii_strip (s : string) : string := rstrip (lstrip s).

Definition lower_char (c : ascii) : ascii :=
  let n := nat_of_ascii c in
  if (65 <=? n)%nat && (n <=? 90)%nat then ascii_of_nat (n + 32) else c.

Definition upper_char (c : ascii) : ascii :=
  let n := nat_of_ascii c in
  if (97 <=? n)%nat && (n <=? 122)%nat then ascii_of_nat (n - 32) else c.

Fixpoint map_chars (f : ascii -> ascii) (s : string) : string :=
  match s with
  | EmptyString => EmptyString
  | String c s' => String (f c) (map_chars f s')
  end.

Definition ascii_lower : string -> string := map_chars lower_char.
Definition ascii_upper : string -> string := map_chars upper_char.

(** The string methods on ASCII text. *)
Definition ascii_methods : Methods :=
  {| strip := ascii_strip; lower := ascii_lower; upper := ascii_upper |}.

End PyStr.

(** ** Messages and the shared state *)

(** A message of the conversation.  [name] is the author tag that the nodes
    test with [hasattr(msg, 'name') and msg.name ...]: [None] stands for a
    message that carries no name (a user turn), on which every such test is
    false. *)
Record Message := {
  name : option string;
  content : string
}.

Definition AIMessage (content name : string) : Message :=
  {| name := Some name; content := content |}.

Definition HumanMessage (content : string) : Message :=
  {| name := None; content := content |}.

(** Modelled from the spec: [enrichment_agent.state.AgentState], which the
    topology modules import and whose declaration is not among the sources.
    The state holds the ordered message sequence and the routing hint
    [next], absent until a node sets it. *)
Record AgentState := {
  messages : list Message;
  next : option string
}.

(** What a node returns: the dictionary with an optional ["messages"] entry
    (absent is the empty list) and an optional ["next"] entry. *)
Record Update := {
  new_messages : list Message;
  new_next : option string
}.

(** Modelled from the spec: the merge of a node's result into the state,
    declared with [AgentState].  New messages are appended in order and the
    hint is overwritten when the node returns one. *)
Definition merge (st : AgentState) (u : Update) : AgentState :=
  {| messages := messages st ++ new_messages u;
     next := match new_next u with
             | Some n => Some n
             | None => next st
             end |}.

(** The position of a message in the sequence is its sequence index. *)
Definition sequence_index (msgs : list Message) : list (nat * Message) :=
  imap (fun i m => (i, m)) msgs.

(** [state.get("next", default)]. *)
Definition get_next (st : AgentState) (default : string) : string :=
  match next st with
  | Some n => n
  | None => default
  end.

(** ** The external capabilities

    The language-model clients and the tool agents are outside the program.
    A run calls them one after another, so each is described by the text it
    answers to a call, given the node that calls and the number of calls of
    that kind made before in the run: [decide] for the calls whose answer is
    a routing choice, [act] for those whose answer becomes a message. *)

Record Capabilities := {
  decide : string -> nat -> string;
  act : string -> nat -> string
}.

Record Calls := {
  decisions : nat;
  actions : nat
}.

Definition no_calls : Calls := {| decisions := 0; actions := 0 |}.

(** Computations that call the capabilities thread the call counters. *)
Definition Eff (A : Type) : Type := Calls -> A * Calls.

Definition ret {A} (a : A) : Eff A := fun k => (a, k).

Definition bind {A B} (m : Eff A) (f : A -> Eff B) : Eff B :=
  fun k => let (a, k') := m k in f a k'.

Notation "'let*' x ':=' m 'in' f" := (bind m (fun x => f))
  (at level 10, x name, m at level 100, f at level 200, only parsing).

(** The counters after one more decision, after one more action. *)
Definition asked (k : Calls) : Calls :=
  {| decisions := S (decisions k); actions := actions k |}.

Definition acted (k : Calls) : Calls :=
  {| decisions := decisions k; actions := S (actions k) |}.

Definition ask_decide (caps : Capabilities) (node : string) : Eff string :=
  fun k => (decide caps node (decisions k), asked k).

Definition ask_act (caps : Capabilities) (node : string) : Eff string :=
  fun k => (act caps node (actions k), acted k).

(** ** The graph builder and the run loop

    The graph library is outside the program; the part of its behaviour the
    three modules rely on is modelled here: a builder that records nodes,
    edges and conditional edges, a compilation that checks that every edge
    names declared nodes, and the loop that runs the current node, merges its
    result and follows the node's outgoing edge. *)

Definition START : string := "__start__".
Definition END : string := "__end__".

Definition Executor : Type := AgentState -> Eff Update.

(** A routing function returns a key of the path map; [None] is a raised
    [KeyError] (a subscript [state["next"]] on a state without hint). *)
Definition Router : Type := AgentState -> option string.

Record StateGraph := {
  nodes : gmap string Executor;
  edges : list (string * string);
  branches : gmap string (Router * gmap string string)
}.

Definition empty_graph : StateGraph :=
  {| nodes := ∅; edges := []; branches := ∅ |}.

(** [add_node] refuses a name that is taken or reserved. *)
Definition add_node (key : string) (action : Executor) (g : StateGraph)
  : option StateGraph :=
  if bool_decide (key = START) || bool_decide (key = END) then None
  else match nodes g !! key with
       | Some _ => None
       | None => Some {| nodes := <[key := action]> (nodes g);
                         edges := edges g;
                         branches := branches g |}
       end.

Definition add_edge (start_key end_key : string) (g : StateGraph)
  : option StateGraph :=
  if bool_decide (start_key = END) || bool_decide (end_key = START) then None
  else Some {| nodes := nodes g;
               edges := edges g ++ [(start_key, end_key)];
               branches := branches g |}.

(** One conditional edge per source node. *)
Definition add_conditional_edges (source : string) (path : Router)
    (path_map : gmap string string) (g : StateGraph) : option StateGraph :=
  match branches g !! source with
  | Some _ => None
  | None => Some {| nodes := nodes g;
                    edges := edges g;
                    branches := <[source := (path, path_map)]> (branches g) |}
  end.

(** [for member in members: workflow.add_edge(member, target)]. *)
Fixpoint add_edges_to (sources : list string) (target : string)
    (g : StateGraph) : option StateGraph :=
  match sources with
  | [] => Some g
  | member :: rest => g' ← add_edge member target g; add_edges_to rest target g'
  end.

(** [{member: member for member in members}]. *)
Definition identity_map (keys : list string) : gmap string string :=
  list_to_map (map (fun member => (member, member)) keys).

(** The executor registered under a name, and the conditional edge that
    leaves a node. *)
Definition node_of (g : StateGraph) (key : string) : option Executor :=
  nodes g !! key.

Definition branch_of (g : StateGraph) (key : string)
  : option (Router * gmap string string) :=
  branches g !! key.

Definition declared (g : StateGraph) (key : string) : bool :=
  bool_decide (key = END) || bool_decide (is_Some (nodes g !! key)).

(** The unconditional successors of a node. *)
Definition successors (g : StateGraph) (key : string) : list string :=
  map snd (filter (fun e => e.1 = key) (edges g)).

(** The targets a conditional edge allows. *)
Definition allowed_targets (g : StateGraph) (key : string) : gset string :=
  match branch_of g key with
  | Some (_, path_map) => list_to_set (map snd (map_to_list path_map))
  | None => ∅
  end.

Record CompiledGraph := {
  builder : StateGraph;
  entry : string
}.

(** Compilation: a single entry edge from [START], and every edge and every
    conditional target names a declared node or [END]. *)
Definition compile (g : StateGraph) : option CompiledGraph :=
  match successors g START with
  | [e] =>
      if forallb (fun '(a, b) =>
                    (bool_decide (a = START) ||
                     bool_decide (is_Some (nodes g !! a))) && declared g b)
                 (edges g)
         && forallb (fun '(a, (_, path_map)) =>
                       bool_decide (is_Some (nodes g !! a)) &&
                       forallb (fun kv => declared g kv.2)
                               (map_to_list path_map))
                    (map_to_list (branches g))
      then Some {| builder := g; entry := e |}
      else None
  | _ => None
  end.

Inductive RunError :=
| UnknownNode (key : string)
| MissingHint (node : string)
| UndeclaredRoute (node key : string)
| NoSingleEdge (node : string).

Record Config := {
  current : string;
  state : AgentState;
  calls : Calls;
  visited : list string
}.

Inductive Outcome :=
| Running (c : Config)
| Finished (st : AgentState) (trace : list string)
| Failed (e : RunError).

(** Where the run goes after [node] has produced state [st]. *)
Definition resolve (g : StateGraph) (node : string) (st : AgentState)
  : RunError + string :=
  match branch_of g node with
  | Some (path, path_map) =>
      match path st with
      | None => inl (MissingHint node)
      | Some key =>
          match path_map !! key with
          | Some target => inr target
          | None => inl (UndeclaredRoute node key)
          end
      end
  | None =>
      match successors g node with
      | [target] => inr target
      | _ => inl (NoSingleEdge node)
      end
  end.

(** One turn of the loop: run the current node, merge, follow the edge. *)
Definition step (g : CompiledGraph) (c : Config) : Outcome :=
  match node_of (builder g) (current c) with
  | None => Failed (UnknownNode (current c))
  | Some action =>
      let '(u, k) := action (state c) (calls c) in
      let st := merge (state c) u in
      let trace := visited c ++ [current c] in
      match resolve (builder g) (current c) st with
      | inl e => Failed e
      | inr target =>
          if bool_decide (target = END) then Finished st trace
          else Running {| current := target; state := st;
                          calls := k; visited := trace |}
      end
  end.

(** The first [n] turns of the loop.  The loop itself has no bound: it ends
    only when an edge leads to [END] or a turn fails. *)
Fixpoint run_for (g : CompiledGraph) (n : nat) (c : Config) : Outcome :=
  match n with
  | O => Running c
  | S n' =>
      match step g c with
      | Running c' => run_for g n' c'
      | halted => halted
      end
  end.

Definition start (g : CompiledGraph) (st : AgentState) : Config :=
  {| current := entry g; state := st; calls := no_calls; visited := [] |}.

(** [graph.invoke({'messages': msgs})]. *)
Definition initial_state (msgs : list Message) : AgentState :=
  {| messages := msgs; next := None |}.

Definition halted (o : Outcome) : bool :=
  match o with
  | Running _ => false
  | _ => true
  end.

(** [hasattr(msg, 'name') and msg.name in names]. *)
Definition named_in (msg : Message) (names : list string) : bool :=
  match name msg with
  | Some n => PyStr.member n names
  | None => false
  end.

(** A node result that only sets the routing hint. *)
Definition only_next (target : string) : Update :=
  {| new_messages := []; new_next := Some target |}.

(** ** The supervisor topology ([graph.py]) *)

Module Supervisor.
Section Topology.

Context `{PyStr.Methods} (caps : Capabilities).

Definition chat : Executor := fun st =>
  let* model_response := ask_act caps "chat" in
  ret {| new_messages := [AIMessage model_response "chatbot"];
         new_next := None |}.

Definition search_node : Executor := fun st =>
  let* result := ask_act caps "searcher" in
  ret {| new_messages := [AIMessage result "searcher"];
         new_next := None |}.

Definition code_node : Executor := fun st =>
  let* result := ask_act caps "coder" in
  ret {| new_messages := [AIMessage result "coder"];
         new_next := None |}.

Definition members : list string := ["chat"; "coder"; "searcher"].
Definition options : list string := members ++ ["FINISH"].

Definition search_keywords : list string :=
  ["搜索"; "查找"; "上网"; "网上"; "搜"; "最新"; "新闻";
   "search"; "find"; "latest"; "news"; "google"; "百度"].

Definition code_keywords : list string :=
  ["代码"; "编程"; "计算"; "图表"; "数据"; "画图";
   "code"; "python"; "chart"; "plot"; "calculate"; "draw"].

Definition supervisor : Executor := fun st =>
  match last (messages st) with
  | None => ret (only_next "chat")
  | Some last_message =>
      if named_in last_message ["chatbot"; "searcher"; "coder"] then
        let* response := ask_decide caps "supervisor" in
        let next_ := PyStr.upper (PyStr.strip response) in
        if PyStr.member next_ ["CHAT"; "CODER"; "SEARCHER"]
        then ret (only_next (PyStr.lower next_))
        else if bool_decide (next_ = "FINISH")
        then ret (only_next END)
        else ret (only_next END)
      else
        let user_message := content last_message in
        let* response := ask_decide caps "supervisor" in
        let next_ := PyStr.lower (PyStr.strip response) in
        if negb (PyStr.member next_ members) then
          if PyStr.any_in search_keywords (PyStr.lower user_message)
          then ret (only_next "searcher")
          else if PyStr.any_in code_keywords (PyStr.lower user_message)
          then ret (only_next "coder")
          else ret (only_next "chat")
        else ret (only_next next_)
  end.

Definition workflow : option StateGraph :=
  w ← add_node "supervisor" supervisor empty_graph;
  w ← add_node "chat" chat w;
  w ← add_node "coder" code_node w;
  w ← add_node "searcher" search_node w;
  w ← add_edges_to members "supervisor" w;
  w ← add_edge START "supervisor" w;
  add_conditional_edges "supervisor"
    (fun state => next state)
    ({[END := END]} ∪ identity_map members) w.

Definition graph : option CompiledGraph := workflow ≫= compile.

End Topology.
End Supervisor.

(** A dictionary literal. *)
Definition dict (items : list (string * string)) : gmap string string :=
  list_to_map items.

(** ** The network topology ([network_graph.py]) *)

Module Network.
Section Topology.

Context `{PyStr.Methods} (caps : Capabilities).

Definition ROUTE_searcher : string := "[ROUTE:network_searcher]".
Definition ROUTE_coder : string := "[ROUTE:network_coder]".
Definition ROUTE_chat : string := "[ROUTE:network_chat]".
Definition ROUTE_FINISH : string := "[ROUTE:FINISH]".

(** The chat node answers and routes with one call: the marker is read
    from the answer and taken out of it. *)
Definition network_chat_node : Executor := fun st =>
  let* response_content := ask_act caps "network_chat" in
  let '(next_agent, response_content) :=
    if PyStr.contains ROUTE_searcher response_content
    then ("network_searcher", PyStr.erase ROUTE_searcher response_content)
    else if PyStr.contains ROUTE_coder response_content
    then ("network_coder", PyStr.erase ROUTE_coder response_content)
    else if PyStr.contains ROUTE_FINISH response_content
    then ("FINISH", PyStr.erase ROUTE_FINISH response_content)
    else ("FINISH", response_content) in
  ret {| new_messages :=
           [AIMessage (PyStr.strip response_content) "network_chatbot"];
         new_next := Some next_agent |}.

Definition network_search_node : Executor := fun st =>
  let* search_result := ask_act caps "network_searcher" in
  let* decision_content := ask_decide caps "network_searcher" in
  let next_agent :=
    if PyStr.contains ROUTE_coder decision_content then "network_coder"
    else if PyStr.contains ROUTE_chat decision_content then "network_chat"
    else if PyStr.contains ROUTE_FINISH decision_content then "FINISH"
    else "FINISH" in
  ret {| new_messages := [AIMessage search_result "network_searcher"];
         new_next := Some next_agent |}.

Definition network_code_node : Executor := fun st =>
  let* code_result := ask_act caps "network_coder" in
  let* decision_content := ask_decide caps "network_coder" in
  let next_agent :=
    if PyStr.contains ROUTE_searcher decision_content then "network_searcher"
    else if PyStr.contains ROUTE_chat decision_content then "network_chat"
    else if PyStr.contains ROUTE_FINISH decision_content then "FINISH"
    else "FINISH" in
  ret {| new_messages := [AIMessage code_result "network_coder"];
         new_next := Some next_agent |}.

Definition network_router : Router := fun state =>
  let next_node := get_next state "network_chat" in
  if bool_decide (next_node = "FINISH") then Some END
  else Some next_node.

Definition network_workflow : option StateGraph :=
  w ← add_node "network_chat" network_chat_node empty_graph;
  w ← add_node "network_searcher" network_search_node w;
  w ← add_node "network_coder" network_code_node w;
  w ← add_edge START "network_chat" w;
  w ← add_conditional_edges "network_chat" network_router
        (dict [("network_searcher", "network_searcher");
               ("network_coder", "network_coder");
               ("network_chat", "network_chat");
               (END, END)]) w;
  w ← add_conditional_edges "network_searcher" network_router
        (dict [("network_chat", "network_chat");
               ("network_coder", "network_coder");
               ("network_searcher", "network_searcher");
               (END, END)]) w;
  add_conditional_edges "network_coder" network_router
    (dict [("network_chat", "network_chat");
           ("network_searcher", "network_searcher");
           ("network_coder", "network_coder");
           (END, END)]) w.

Definition network_graph : option CompiledGraph :=
  network_workflow ≫= compile.

End Topology.
End Network.

(** ** The hierarchical topology ([hierarchical_graph.py]) *)

Module Hierarchical.
Section Topology.

Context `{PyStr.Methods} (caps : Capabilities).

(** *** Third tier: the workers.  Each one performs its task and signs
    the result with its own name. *)

Definition worker (node author : string) : Executor := fun st =>
  let* response := ask_act caps node in
  ret {| new_messages := [AIMessage response author]; new_next := None |}.

Definition researcher_agent : Executor := worker "researcher" "researcher".
Definition searcher_agent : Executor := worker "searcher" "searcher".
Definition data_collector_agent : Executor :=
  worker "data_collector" "data_collector".
Definition analyst_agent : Executor := worker "analyst" "analyst".
Definition calculator_agent : Executor := worker "calculator" "calculator".
Definition visualizer_agent : Executor := worker "visualizer" "visualizer".
Definition coder_agent : Executor := worker "coder" "coder".
Definition tester_agent : Executor := worker "tester" "tester".
Definition deployer_agent : Executor := worker "deployer" "deployer".

(** *** Second tier: the team supervisors *)

(** [hasattr(last_message, 'name') and last_message.name == who], where
    [last_message] is [None] on an empty history. *)
Definition last_named (msgs : list Message) (who : string) : bool :=
  match last msgs with
  | Some last_message => bool_decide (name last_message = Some who)
  | None => false
  end.

Definition research_team_supervisor : Executor := fun st =>
  if last_named (messages st) "top_supervisor" then
    let* response := ask_decide caps "research_team" in
    let choice := PyStr.lower (PyStr.strip response) in
    let choice :=
      if negb (PyStr.member choice ["researcher"; "searcher"; "data_collector"])
      then "researcher" else choice in
    ret {| new_messages :=
             [AIMessage ("研究团队接收任务，分配给" +:+ choice)
                        "research_supervisor"];
           new_next := Some choice |}
  else
    ret {| new_messages :=
             [AIMessage "研究团队任务完成" "research_supervisor"];
           new_next := Some "FINISH" |}.

Definition analysis_team_supervisor : Executor := fun st =>
  if last_named (messages st) "top_supervisor" then
    let* response := ask_decide caps "analysis_team" in
    let choice := PyStr.lower (PyStr.strip response) in
    let choice :=
      if negb (PyStr.member choice ["analyst"; "calculator"; "visualizer"])
      then "analyst" else choice in
    ret {| new_messages :=
             [AIMessage ("分析团队接收任务，分配给" +:+ choice)
                        "analysis_supervisor"];
           new_next := Some choice |}
  else
    ret {| new_messages :=
             [AIMessage "分析团队任务完成" "analysis_supervisor"];
           new_next := Some "FINISH" |}.

Definition execution_team_supervisor : Executor := fun st =>
  if last_named (messages st) "top_supervisor" then
    let* response := ask_decide caps "execution_team" in
    let choice := PyStr.lower (PyStr.strip response) in
    let choice :=
      if negb (PyStr.member choice ["coder"; "tester"; "deployer"])
      then "coder" else choice in
    ret {| new_messages :=
             [AIMessage ("执行团队接收任务，分配给" +:+ choice)
                        "execution_supervisor"];
           new_next := Some choice |}
  else
    ret {| new_messages :=
             [AIMessage "执行团队任务完成" "execution_supervisor"];
           new_next := Some "FINISH" |}.

(** *** First tier: the top-level supervisor *)

Definition valid_teams : list string :=
  ["research_team"; "analysis_team"; "execution_team"].

Definition top_level_supervisor : Executor := fun st =>
  let user_input :=
    match last (messages st) with
    | Some m => content m
    | None => EmptyString
    end in
  let* response := ask_decide caps "top_supervisor" in
  let team_choice := PyStr.lower (PyStr.strip response) in
  let team_choice :=
    if negb (PyStr.member team_choice valid_teams)
    then "research_team" else team_choice in
  let task_message :=
    "顶层监督者分析用户需求：" +:+ user_input +:+
    "，决定分配给" +:+ team_choice +:+ "团队处理" in
  ret {| new_messages := [AIMessage task_message "top_supervisor"];
         new_next := Some team_choice |}.

(** *** Routers *)

Definition hierarchical_router : Router := fun state =>
  let next_node := get_next state "research_team" in
  if bool_decide (next_node = "FINISH") then Some END
  else Some next_node.

Definition initial_router : Router := fun state =>
  let next_node := get_next state "research_team" in
  if bool_decide (next_node = "FINISH") then Some END
  else Some next_node.

Definition team_supervisor_router : Router := fun state =>
  let next_node := get_next state "FINISH" in
  if bool_decide (next_node = "FINISH") then Some "top_supervisor"
  else Some next_node.

Definition supervisor_names : list string :=
  ["research_supervisor"; "analysis_supervisor"; "execution_supervisor"].

Definition top_supervisor_final_router : Router := fun state =>
  let supervisor_reports :=
    List.filter (fun msg => named_in msg supervisor_names)
                (messages state) in
  match supervisor_reports with
  | _ :: _ => Some END
  | [] => Some (get_next state "research_team")
  end.

Definition hierarchical_workflow : option StateGraph :=
  w ← add_node "top_supervisor" top_level_supervisor empty_graph;
  w ← add_node "research_team" research_team_supervisor w;
  w ← add_node "analysis_team" analysis_team_supervisor w;
  w ← add_node "execution_team" execution_team_supervisor w;
  w ← add_node "researcher" researcher_agent w;
  w ← add_node "searcher" searcher_agent w;
  w ← add_node "data_collector" data_collector_agent w;
  w ← add_node "analyst" analyst_agent w;
  w ← add_node "calculator" calculator_agent w;
  w ← add_node "visualizer" visualizer_agent w;
  w ← add_node "coder" coder_agent w;
  w ← add_node "tester" tester_agent w;
  w ← add_node "deployer" deployer_agent w;
  w ← add_edge START "top_supervisor" w;
  w ← add_edge "researcher" "research_team" w;
  w ← add_edge "searcher" "research_team" w;
  w ← add_edge "data_collector" "research_team" w;
  w ← add_edge "analyst" "analysis_team" w;
  w ← add_edge "calculator" "analysis_team" w;
  w ← add_edge "visualizer" "analysis_team" w;
  w ← add_edge "coder" "execution_team" w;
  w ← add_edge "tester" "execution_team" w;
  w ← add_edge "deployer" "execution_team" w;
  w ← add_conditional_edges "top_supervisor" top_supervisor_final_router
        (dict [("research_team", "research_team");
               ("analysis_team", "analysis_team");
               ("execution_team", "execution_team");
               (END, END)]) w;
  w ← add_conditional_edges "research_team" team_supervisor_router
        (dict [("researcher", "researcher");
               ("searcher", "searcher");
               ("data_collector", "data_collector");
               ("top_supervisor", "top_supervisor")]) w;
  w ← add_conditional_edges "analysis_team" team_supervisor_router
        (dict [("analyst", "analyst");
               ("calculator", "calculator");
               ("visualizer", "visualizer");
               ("top_supervisor", "top_supervisor")]) w;
  add_conditional_edges "execution_team" team_supervisor_router
    (dict [("coder", "coder");
           ("tester", "tester");
           ("deployer", "deployer");
           ("top_supervisor", "top_supervisor")]) w.

Definition hierarchical_graph : option CompiledGraph :=
  hierarchical_workflow ≫= compile.

End Topology.
End Hierarchical.

(** ** Notions used in the statements *)

(** The graph object a module binds at import: the result of [compile],
    which is only there when the compilation succeeded. *)
Definition compiled (og : option CompiledGraph) : CompiledGraph :=
  default {| builder := empty_graph; entry := END |} og.

(** The decisions of the network never name FINISH: the answer of the chat
    node holds the marker of the searcher or of the coder, the decision after
    a search that of the coder or of the chat node, the decision after a
    code run that of the searcher or of the chat node. *)
Definition always_routes_on (caps : Capabilities) : Prop :=
  (forall i,
      PyStr.contains Network.ROUTE_searcher (act caps "network_chat" i) ||
      PyStr.contains Network.ROUTE_coder (act caps "network_chat" i) = true) /\
  (forall i,
      PyStr.contains Network.ROUTE_coder (decide caps "network_searcher" i) ||
      PyStr.contains Network.ROUTE_chat (decide caps "network_searcher" i)
      = true) /\
  (forall i,
      PyStr.contains Network.ROUTE_searcher (decide caps "network_coder" i) ||
      PyStr.contains Network.ROUTE_chat (decide caps "network_coder" i)
      = true).

(** The history holds a report of a team supervisor. *)
Definition has_report (msgs : list Message) : bool :=
  existsb (fun msg => named_in msg Hierarchical.supervisor_names) msgs.

(** A team node is called with nothing to tell who calls: the history is
    empty, or its most recent message carries no name. *)
Definition ambiguous_caller (msgs : list Message) : Prop :=
  msgs = [] \/ exists m, last msgs = Some m /\ name m = None.

(** A worker of the supervisor graph answers and hands back to the hub. *)
Definition reports_to_hub (caps : Capabilities) (g : CompiledGraph)
    (node author : string) : Prop :=
  forall st k v,
    step g {| current := node; state := st; calls := k; visited := v |} =
    Running {| current := "supervisor";
               state := merge st {| new_messages :=
                                      [AIMessage (act caps node (actions k))
                                                 author];
                                    new_next := None |};
               calls := acted k;
               visited := v ++ [node] |}.

(** The path map of every node of the mesh. *)
Definition mesh : gmap string string :=
  dict [("network_chat", "network_chat");
        ("network_searcher", "network_searcher");
        ("network_coder", "network_coder");
        (END, END)].

(** The hints the three executors of the network can return. *)
Definition network_hint (hint : string) : Prop :=
  hint = "network_chat" \/ hint = "network_searcher" \/
  hint = "network_coder" \/ hint = "FINISH".

(** The run is at a node of the mesh. *)
Definition in_mesh (c : Config) : Prop :=
  current c = "network_chat" \/ current c = "network_searcher" \/
  current c = "network_coder".

(** The team the root of the hierarchy names: its decision when it is a
    team, the research team otherwise. *)
Definition named_team `{PyStr.Methods} (caps : Capabilities) (k : Calls)
  : string :=
  let team_choice :=
    PyStr.lower (PyStr.strip (decide caps "top_supervisor" (decisions k))) in
  if PyStr.member team_choice Hierarchical.valid_teams then team_choice
  else "research_team".

(** ** The outcome of a run *)

(** [invoke g c o]: the loop started in configuration [c] ends with outcome
    [o].  A run that keeps routing between nodes has no outcome. *)
Inductive invoke (g : CompiledGraph) : Config -> Outcome -> Prop :=
| invoke_finished c st trace :
    step g c = Finished st trace -> invoke g c (Finished st trace)
| invoke_failed c e :
    step g c = Failed e -> invoke g c (Failed e)
| invoke_running c c' o :
    step g c = Running c' -> invoke g c' o -> invoke g c o.

(** The message sequence an outcome holds; a failed turn commits none. *)
Definition final_messages (o : Outcome) : option (list Message) :=
  match o with
  | Running c => Some (messages (state c))
  | Finished st _ => Some (messages st)
  | Failed _ => None
  end.

(** The messages an outcome holds extend [msgs]: nothing before the end of
    [msgs] was dropped, moved or renumbered. *)
Definition extends (msgs : list Message) (o : Outcome) : Prop :=
  match final_messages o with
  | Some msgs' =>
      msgs `prefix_of` msgs' /\
      sequence_index msgs `prefix_of` sequence_index msgs'
  | None => True
  end.

(** ** The routing policy in the words of the specification

    A decision token is normalised and looked up in the allowed targets; a
    token outside them is replaced by the target of the first keyword rule
    that matches the originating message content and, when no rule matches,
    by the static default. *)

Definition KeywordRules : Type := list (list string * string).

Fixpoint first_match (rules : KeywordRules) (text : string) : option string :=
  match rules with
  | [] => None
  | (keywords, target) :: rest =>
      if PyStr.any_in keywords text then Some target
      else first_match rest text
  end.

Definition fallback_policy (rules : KeywordRules) (default text : string)
  : string :=
  match first_match rules text with
  | Some target => target
  | None => default
  end.

(** The keyword rules of the supervisor's hub, in priority order; the other
    decision sites configure none. *)
Definition hub_rules : KeywordRules :=
  [(Supervisor.search_keywords, "searcher");
   (Supervisor.code_keywords, "coder")].

(** The content of the most recent message, the text a decision is about;
    empty on an empty history. *)
Definition last_content (msgs : list Message) : string :=
  match last msgs with
  | Some m => content m
  | None => EmptyString
  end.

(** ** Capabilities used in the examples *)

(** Every decision answers [token], every action answers [text]. *)
Definition constant_caps (token text : string) : Capabilities :=
  {| decide := fun _ _ => token; act := fun _ _ => text |}.

(** The decisions follow a script, call after call; [final] once the script
    is exhausted. *)
Definition scripted_caps (script : list string) (final text : string)
  : Capabilities :=
  {| decide := fun _ i => default final (script !! i);
     act := fun _ _ => text |}.

(** Decisions answered by caller: the root asks [root], the teams [team]. *)
Definition tiered_caps (root team text : string) : Capabilities :=
  {| decide := fun node _ =>
       if bool_decide (node = "top_supervisor") then root else team;
     act := fun _ _ => text |}.

(** ** The graph selector ([unified_graph.py]) *)

(** A compiled graph with the name its module gives it
    ([graph.name = "multi-Agent"]). *)
Record NamedGraph := {
  graph_object : option CompiledGraph;
  graph_name : string
}.

Module Unified.
Section Selector.

Context `{PyStr.Methods} (caps : Capabilities).

(** The graph objects of [graph.py] and [network_graph.py], which the module
    imports, and that of [hierarchical_graph.py], which it does not. *)
Definition supervisor_graph : NamedGraph :=
  {| graph_object := Supervisor.graph caps; graph_name := "multi-Agent" |}.

Definition network_graph : NamedGraph :=
  {| graph_object := Network.network_graph caps;
     graph_name := "Network-Agent" |}.

Definition hierarchical_graph : NamedGraph :=
  {| graph_object := Hierarchical.hierarchical_graph caps;
     graph_name := "Hierarchical-Multi-Agent" |}.

Record GraphSelector := {
  self_supervisor_graph : NamedGraph;
  self_network_graph : NamedGraph
}.

(** [GraphSelector.__init__]. *)
Definition GraphSelector_init : GraphSelector :=
  {| self_supervisor_graph := supervisor_graph;
     self_network_graph := network_graph |}.

Definition get_supervisor_graph (self : GraphSelector) : NamedGraph :=
  self_supervisor_graph self.

Definition get_network_graph (self : GraphSelector) : NamedGraph :=
  self_network_graph self.

Definition graph_selector : GraphSelector := GraphSelector_init.

(** [get_graph_by_type(graph_type="supervisor")]; [None] is a call without
    argument. *)
Definition get_graph_by_type (graph_type : option string) : NamedGraph :=
  let graph_type := default "supervisor" graph_type in
  if bool_decide (PyStr.lower graph_type = "network")
  then get_network_graph graph_selector
  else get_supervisor_graph graph_selector.

End Selector.
End Unified.

(** ** Notions used in the further statements *)

(** The author tag under which a node of the network signs its message. *)
Definition network_author (node : string) : string :=
  if bool_decide (node = "network_chat") then "network_chatbot" else node.

(** The turns of a trace that were not the hub's. *)
Definition worker_visits (trace : list string) : nat :=
  length (filter (fun node => node <> "supervisor") trace).

(** The workers of the hierarchy, each with its team. *)
Definition staff : list (string * string) :=
  [("researcher", "research_team"); ("searcher", "research_team");
   ("data_collector", "research_team");
   ("analyst", "analysis_team"); ("calculator", "analysis_team");
   ("visualizer", "analysis_team");
   ("coder", "execution_team"); ("tester", "execution_team");
   ("deployer", "execution_team")].

(** The author tag of a team's supervisor. *)
Definition team_author (team : string) : string :=
  if bool_decide (team = "research_team") then "research_supervisor"
  else if bool_decide (team = "analysis_team") then "analysis_supervisor"
  else "execution_supervisor".

(** The authors of the log are those of [base] followed by the author tags
    of the nodes visited, in order. *)
Definition log_follows (base : list (option string)) (msgs : list Message)
    (trace : list string) : Prop :=
  name <$> msgs = base ++ ((fun node => Some (network_author node)) <$> trace).

(** Hub and worker turns alternate, and only the workers add to the log. *)
Definition balanced (base : nat) (c : Config) : Prop :=
  length (messages (state c)) = base + worker_visits (visited c) /\
  actions (calls c) = worker_visits (visited c) /\
  ((current c = "supervisor" /\
    length (visited c) = 2 * worker_visits (visited c)) \/
   ((current c = "chat" \/ current c = "coder" \/ current c = "searcher") /\
    length (visited c) = 2 * worker_visits (visited c) + 1)).

(** * Properties *)

(** ** Strings *)

Section StringFacts.

Import PyStr.

Lemma append_cons c a b : String c a +:+ b = String c (a +:+ b).
Proof. reflexivity. Qed.

Lemma lstrip_suffix s : exists l, s = l +:+ lstrip s.
Proof.
  induction s as [|c s [l IH]]; simpl.
  - by exists EmptyString.
  - destruct (is_space c).
    + exists (String c l). rewrite append_cons. congruence.
    + by exists EmptyString.
Qed.

Lemma rstrip_prefix s : exists r, s = rstrip s +:+ r.
Proof.
  induction s as [|c s [r IH]]; simpl.
  - by exists EmptyString.
  - destruct (rstrip s) eqn:E.
    + destruct (is_space c).
      * by exists (String c s).
      * exists s. by rewrite append_cons.
    + exists r. rewrite append_cons. congruence.
Qed.

Lemma ascii_strip_inside : strips_inside ascii_methods.
Proof.
  intros s. simpl. unfold ascii_strip.
  destruct (lstrip_suffix s) as [l Hl].
  destruct (rstrip_prefix (lstrip s)) as [r Hr].
  exists l, r. by rewrite <- Hr.
Qed.

(** *** Prefixes and occurrences *)

Lemma sprefix_nil s : String.prefix EmptyString s = true.
Proof. by destruct s. Qed.

Lemma sprefix_cons a s b t :
  String.prefix (String a s) (String b t) = true <-> a = b /\ String.prefix s t = true.
Proof.
  simpl. destruct (ascii_dec a b) as [->|Hne]; [tauto|].
  split; [discriminate|]. by intros [? _].
Qed.

Lemma sprefix_app_r m s r :
  String.prefix m s = true -> String.prefix m (s +:+ r) = true.
Proof.
  revert s. induction m as [|a m IH]; intros s Hp.
  - apply sprefix_nil.
  - destruct s as [|b s]; [discriminate|].
    rewrite append_cons. apply sprefix_cons in Hp as [-> Hp].
    apply sprefix_cons. auto.
Qed.

Lemma sprefix_self_app m r : String.prefix m (m +:+ r) = true.
Proof.
  induction m as [|a m IH]; [apply sprefix_nil|].
  rewrite append_cons. by apply sprefix_cons.
Qed.

Lemma contains_cons m c s :
  contains m (String c s) = String.prefix m (String c s) || contains m s.
Proof. reflexivity. Qed.

Lemma contains_app_r m s r :
  contains m s = true -> contains m (s +:+ r) = true.
Proof.
  induction s as [|c s IH]; intros Hc.
  - simpl in Hc. rewrite orb_false_r in Hc.
    destruct m; [|discriminate]. destruct r; reflexivity.
  - rewrite append_cons, contains_cons. rewrite contains_cons in Hc.
    apply orb_true_iff in Hc as [Hp|Hc].
    + apply (sprefix_app_r _ _ r) in Hp. rewrite append_cons in Hp.
      by rewrite Hp.
    + rewrite (IH Hc). apply orb_true_r.
Qed.

Lemma contains_app_l m l s :
  contains m s = true -> contains m (l +:+ s) = true.
Proof.
  intros Hc. induction l as [|c l IH]; [done|].
  rewrite append_cons, contains_cons, IH. apply orb_true_r.
Qed.

(** What [strip] returns holds no occurrence that its argument lacks. *)
Lemma contains_strip `{M : Methods} m s :
  strips_inside M ->
  contains m s = false -> contains m (strip s) = false.
Proof.
  intros Hstrip Hs. destruct (contains m (strip s)) eqn:E; [|done].
  destruct (Hstrip s) as (l & r & Hlr).
  apply (contains_app_r _ _ r), (contains_app_l _ l) in E.
  rewrite <- Hlr in E. congruence.
Qed.

End StringFacts.

Section EraseFacts.

Import PyStr.

(** A pattern without [c] that matches a text of the form
    [pre ++ c :: rest] matches inside [pre]. *)
Lemma sprefix_before c x pre rest :
  occurs c x = false ->
  String.prefix x (pre +:+ String c rest) = true ->
  String.prefix x pre = true.
Proof.
  revert pre. induction x as [|b x IH]; intros pre Hocc Hp.
  - apply sprefix_nil.
  - simpl in Hocc. apply orb_false_iff in Hocc as [Hb Hocc].
    destruct pre as [|a pre].
    + simpl in Hp. destruct (ascii_dec b c) as [->|]; [|discriminate].
      by rewrite bool_decide_eq_true_2 in Hb.
    + rewrite append_cons in Hp. apply sprefix_cons in Hp as [-> Hp].
      apply sprefix_cons. eauto.
Qed.

Lemma erase_from_skip old a b :
  erase_from old (String.length a) (a +:+ b) = erase_from old 0 b.
Proof. induction a as [|c a IH]; [done|]. simpl. exact IH. Qed.

Lemma erase_from_absent old s :
  contains old s = false -> erase_from old 0 s = s.
Proof.
  induction s as [|c s IH]; [done|].
  rewrite contains_cons. intros [Hp Hc]%orb_false_iff.
  cbn [erase_from]. rewrite Hp. f_equal. auto.
Qed.

(** Erasing a marker whose first character occurs nowhere else in it: one
    occurrence is taken out of a text that holds no other. *)
Lemma erase_one c m pre post :
  occurs c m = false ->
  contains (String c m) (pre +:+ post) = false ->
  erase (String c m) (pre +:+ String c m +:+ post) = pre +:+ post.
Proof.
  intros Hocc. unfold erase.
  induction pre as [|a pre IH]; intros Hc.
  - change (EmptyString +:+ ?x) with x in *.
    rewrite append_cons. cbn [erase_from].
    rewrite <- append_cons, sprefix_self_app.
    replace (String.length (String c m) - 1) with (String.length m)
      by (simpl; lia).
    rewrite erase_from_skip. by apply erase_from_absent.
  - rewrite (append_cons a pre post), contains_cons in Hc.
    apply orb_false_iff in Hc as [Hp Hc].
    rewrite (append_cons a pre). cbn [erase_from].
    destruct (String.prefix (String c m)
                (String a (pre +:+ String c m +:+ post))) eqn:E.
    + exfalso. rewrite (append_cons c m post) in E.
      apply sprefix_cons in E as [<- E].
      apply sprefix_before in E; [|done].
      apply (sprefix_app_r _ _ post) in E.
      assert (String.prefix (String c m) (String c (pre +:+ post)) = true)
        as Hq by by apply sprefix_cons.
      congruence.
    + by rewrite IH.
Qed.

End EraseFacts.

(** ** The run loop *)

Section EngineFacts.

Variable g : CompiledGraph.

Lemma step_unconditional c (action : Executor) u k target :
  node_of (builder g) (current c) = Some action ->
  branch_of (builder g) (current c) = None ->
  successors (builder g) (current c) = [target] ->
  action (state c) (calls c) = (u, k) ->
  step g c =
    if bool_decide (target = END)
    then Finished (merge (state c) u) (visited c ++ [current c])
    else Running {| current := target; state := merge (state c) u;
                    calls := k; visited := visited c ++ [current c] |}.
Proof.
  intros Hn Hb Hs Ha. unfold step, resolve. by rewrite Hn, Ha, Hb, Hs.
Qed.

Lemma step_conditional c (action : Executor) (path : Router) path_map
    u k key target :
  node_of (builder g) (current c) = Some action ->
  branch_of (builder g) (current c) = Some (path, path_map) ->
  action (state c) (calls c) = (u, k) ->
  path (merge (state c) u) = Some key ->
  path_map !! key = Some target ->
  step g c =
    if bool_decide (target = END)
    then Finished (merge (state c) u) (visited c ++ [current c])
    else Running {| current := target; state := merge (state c) u;
                    calls := k; visited := visited c ++ [current c] |}.
Proof.
  intros Hn Hb Ha Hp Hk. unfold step, resolve.
  by rewrite Hn, Ha, Hb, Hp, Hk.
Qed.

(** Every turn visits the node it ran and leaves the earlier visits. *)
Lemma step_visited c c' :
  step g c = Running c' -> visited c' = visited c ++ [current c].
Proof.
  unfold step. destruct (node_of _ _) as [action|]; [|discriminate].
  destruct (action _ _) as [u k]. destruct (resolve _ _ _); [discriminate|].
  case_bool_decide; [discriminate|]. by intros [= <-].
Qed.

Lemma run_for_halted n c o :
  step g c = o -> halted o = true -> run_for g (S n) c = o.
Proof. intros <- Ho. simpl. by destruct (step g c). Qed.

Lemma run_for_running n c c' :
  step g c = Running c' -> run_for g (S n) c = run_for g n c'.
Proof. intros Hs. simpl. by rewrite Hs. Qed.

(** The outcome of a run is reached by finitely many turns, and conversely. *)
Lemma invoke_run_for c o :
  invoke g c o <-> exists n, run_for g n c = o /\ halted o = true.
Proof.
  split.
  - induction 1 as [c st tr Hs|c e Hs|c c' o Hs _ (n & Hn & Ho)].
    + exists 1. by rewrite (run_for_halted 0 c _ Hs).
    + exists 1. by rewrite (run_for_halted 0 c _ Hs).
    + exists (S n). by rewrite (run_for_running n c c' Hs).
  - intros (n & Hn & Ho). revert c Hn.
    induction n as [|n IH]; intros c Hn.
    + simpl in Hn. by subst o.
    + simpl in Hn. destruct (step g c) as [c'|st tr|e] eqn:Hs.
      * eapply invoke_running; eauto.
      * subst o. by apply invoke_finished.
      * subst o. by apply invoke_failed.
Qed.

Lemma invoke_deterministic c o1 o2 :
  invoke g c o1 -> invoke g c o2 -> o1 = o2.
Proof.
  intros H1. revert o2.
  induction H1 as [c st tr Hs|c e Hs|c c' o Hs _ IH]; intros o2 H2;
    inversion H2; subst; try congruence.
  apply IH. congruence.
Qed.

(** A run that is still going after every number of turns has no outcome. *)
Lemma endless_no_outcome c :
  (forall n, halted (run_for g n c) = false) -> ~ exists o, invoke g c o.
Proof.
  intros Hall (o & Ho). apply invoke_run_for in Ho as (n & Hn & Hh).
  specialize (Hall n). rewrite Hn in Hall. congruence.
Qed.

(** An invariant that every turn preserves while it keeps the run going
    holds after any number of turns. *)
Lemma run_for_invariant (I : Config -> Prop) :
  (forall c, I c -> exists c', step g c = Running c' /\ I c') ->
  forall n c, I c ->
    exists c', run_for g n c = Running c' /\ I c' /\
               length (visited c') = length (visited c) + n.
Proof.
  intros Hstep n. induction n as [|n IH]; intros c Hc.
  - exists c. simpl. repeat split; [done|lia].
  - destruct (Hstep c Hc) as (c1 & Hs & H1).
    destruct (IH c1 H1) as (c' & Hr & H' & Hlen).
    exists c'. rewrite (run_for_running n c c1 Hs).
    repeat split; [done..|].
    rewrite Hlen, (step_visited c c1 Hs), length_app. simpl. lia.
Qed.

(** *** The message log *)

Lemma sequence_index_app old new :
  sequence_index (old ++ new) =
  sequence_index old ++ imap (fun j m => (length old + j, m)) new.
Proof. unfold sequence_index. by rewrite imap_app. Qed.

Lemma sequence_index_fst msgs :
  (sequence_index msgs).*1 = seq 0 (length msgs).
Proof.
  unfold sequence_index. rewrite fmap_imap.
  rewrite (imap_ext _ (fun i _ => i)) by done.
  induction msgs as [|m msgs IH] using rev_ind; [done|].
  rewrite imap_app, length_app, seq_app, IH. simpl.
  by rewrite Nat.add_0_r.
Qed.

Lemma extends_refl msgs o :
  final_messages o = Some msgs -> extends msgs o.
Proof. unfold extends. by intros ->. Qed.

Lemma extends_app msgs new o :
  extends (msgs ++ new) o -> extends msgs o.
Proof.
  unfold extends. destruct (final_messages o) as [msgs'|]; [|done].
  intros [H1 H2]. split.
  - etrans; [|exact H1]. by apply prefix_app_r.
  - etrans; [|exact H2]. rewrite sequence_index_app. by apply prefix_app_r.
Qed.

Lemma step_extends c : extends (messages (state c)) (step g c).
Proof.
  unfold step. destruct (node_of _ _) as [action|]; [|done].
  destruct (action _ _) as [u k]. destruct (resolve _ _ _); [done|].
  apply (extends_app _ (new_messages u)).
  case_bool_decide; by apply extends_refl.
Qed.

Lemma run_for_extends n c : extends (messages (state c)) (run_for g n c).
Proof.
  revert c. induction n as [|n IH]; intros c.
  - by apply extends_refl.
  - simpl. pose proof (step_extends c) as Hs.
    destruct (step g c) as [c'|st tr|e] eqn:E; [|done..].
    specialize (IH c'). unfold extends in *. simpl in Hs.
    destruct (final_messages (run_for g n c')); [|done].
    destruct Hs, IH. split; etrans; eauto.
Qed.

End EngineFacts.

(** C8 — A node's new messages are appended to the log: after any number of
    turns of any run the earlier message sequence is a prefix of the current
    one, each earlier message at its earlier index; the new messages of a
    turn take the indices that follow the previous last one, in their order;
    and the indices of a log are 0, 1, 2, ... without gap or repetition,
    whichever nodes produced the messages. *)
Theorem append_only_log (g : CompiledGraph) (n : nat) (c : Config) :
  extends (messages (state c)) (run_for g n c) /\
  (forall st u,
     sequence_index (messages (merge st u)) =
     sequence_index (messages st) ++
     imap (fun j m => (length (messages st) + j, m)) (new_messages u)) /\
  (forall msgs, (sequence_index msgs).*1 = seq 0 (length msgs)).
Proof.
  split; [apply run_for_extends|]. split.
  - intros st u. apply sequence_index_app.
  - apply sequence_index_fst.
Qed.

(** ** The compiled graphs *)

(** A graph that compiled is the one its builder calls compute. *)
Lemma compiled_is (og : option CompiledGraph) (g : CompiledGraph) :
  og = Some g -> g = compiled og.
Proof. by intros ->. Qed.

Ltac graph_facts H :=
  apply compiled_is in H; subst; repeat split; reflexivity.

Section SupervisorGraph.

Context `{PyStr.Methods} (caps : Capabilities).

Lemma supervisor_compiles : is_Some (Supervisor.graph caps).
Proof. vm_compute. eauto. Qed.

Lemma supervisor_graph_nodes g :
  Supervisor.graph caps = Some g ->
  entry g = "supervisor" /\
  node_of (builder g) "supervisor" = Some (Supervisor.supervisor caps) /\
  node_of (builder g) "chat" = Some (Supervisor.chat caps) /\
  node_of (builder g) "coder" = Some (Supervisor.code_node caps) /\
  node_of (builder g) "searcher" = Some (Supervisor.search_node caps).
Proof. intros Hg. graph_facts Hg. Qed.

Lemma supervisor_graph_edges g :
  Supervisor.graph caps = Some g ->
  branch_of (builder g) "supervisor" =
    Some (fun state => next state,
          dict [("chat", "chat"); ("coder", "coder");
                ("searcher", "searcher"); (END, END)]) /\
  successors (builder g) "supervisor" = [] /\
  Forall (fun member =>
            successors (builder g) member = ["supervisor"] /\
            branch_of (builder g) member = None)
         Supervisor.members.
Proof.
  intros Hg. apply compiled_is in Hg. subst g.
  split; [reflexivity|]. split; [reflexivity|].
  repeat constructor; reflexivity.
Qed.

Lemma supervisor_allowed_targets g :
  Supervisor.graph caps = Some g ->
  allowed_targets (builder g) "supervisor" =
    list_to_set Supervisor.members ∪ {[END]}.
Proof.
  intros Hg. destruct (supervisor_graph_edges g Hg) as (Hb & _).
  unfold allowed_targets. rewrite Hb. vm_compute. exact eq_refl.
Qed.

End SupervisorGraph.


(** ** The supervisor topology *)

Section SupervisorRuns.

Context `{PyStr.Methods} (caps : Capabilities).
Context (g : CompiledGraph) (Hg : Supervisor.graph caps = Some g).

(** The hub on an empty history. *)
Lemma supervisor_empty st k :
  messages st = [] ->
  Supervisor.supervisor caps st k = (only_next "chat", k).
Proof. intros Hm. unfold Supervisor.supervisor. by rewrite Hm. Qed.

(** The hub on a turn that is not a worker's: the decision is normalised
    by [strip] and [lower] and checked against the workers. *)
Lemma supervisor_user_turn st k m :
  last (messages st) = Some m ->
  named_in m ["chatbot"; "searcher"; "coder"] = false ->
  Supervisor.supervisor caps st k =
    (let token := PyStr.lower (PyStr.strip
                    (decide caps "supervisor" (decisions k))) in
     only_next (if PyStr.member token Supervisor.members then token
                else fallback_policy hub_rules "chat"
                       (PyStr.lower (content m))),
     asked k).
Proof.
  intros Hl Hn. unfold Supervisor.supervisor. rewrite Hl, Hn.
  unfold bind, ask_decide, ret. cbn zeta.
  destruct (PyStr.member _ Supervisor.members); [done|].
  unfold fallback_policy, hub_rules, first_match. cbn [negb].
  by repeat destruct (PyStr.any_in _ _).
Qed.

(** The hub on a worker's report: the decision is normalised by [strip]
    and [upper]; anything but a worker's name ends the run. *)
Lemma supervisor_report_turn st k m :
  last (messages st) = Some m ->
  named_in m ["chatbot"; "searcher"; "coder"] = true ->
  Supervisor.supervisor caps st k =
    (let token := PyStr.upper (PyStr.strip
                    (decide caps "supervisor" (decisions k))) in
     only_next (if PyStr.member token ["CHAT"; "CODER"; "SEARCHER"]
                then PyStr.lower token else END),
     asked k).
Proof.
  intros Hl Hn. unfold Supervisor.supervisor. rewrite Hl, Hn.
  unfold bind, ask_decide, ret. cbn zeta.
  destruct (PyStr.member _ _); [done|]. by case_bool_decide.
Qed.

Lemma supervisor_step_worker :
  reports_to_hub caps g "chat" "chatbot" /\
  reports_to_hub caps g "coder" "coder" /\
  reports_to_hub caps g "searcher" "searcher".
Proof.
  destruct (supervisor_graph_nodes caps g Hg) as (_ & _ & Hc & Hd & Hs).
  destruct (supervisor_graph_edges caps g Hg) as (_ & _ & Hw).
  unfold Supervisor.members in Hw. rewrite !Forall_cons in Hw.
  destruct Hw as ((S1 & B1) & (S2 & B2) & (S3 & B3) & _).
  repeat split; intros st k v.
  - exact (step_unconditional g
             {| current := "chat"; state := st; calls := k; visited := v |}
             _ _ _ _ Hc B1 S1 eq_refl).
  - exact (step_unconditional g
             {| current := "coder"; state := st; calls := k; visited := v |}
             _ _ _ _ Hd B2 S2 eq_refl).
  - exact (step_unconditional g
             {| current := "searcher"; state := st; calls := k; visited := v |}
             _ _ _ _ Hs B3 S3 eq_refl).
Qed.

(** The hub routes to the worker it named, or ends the run. *)
Lemma supervisor_step_hub st k v u k' target :
  Supervisor.supervisor caps st k = (u, k') ->
  new_next u = Some target ->
  target = "chat" \/ target = "coder" \/ target = "searcher" \/
    target = END ->
  step g {| current := "supervisor"; state := st; calls := k;
            visited := v |} =
  if bool_decide (target = END)
  then Finished (merge st u) (v ++ ["supervisor"])
  else Running {| current := target; state := merge st u; calls := k';
                  visited := v ++ ["supervisor"] |}.
Proof.
  intros Hu Hn Hin.
  destruct (supervisor_graph_nodes caps g Hg) as (_ & Hh & _).
  destruct (supervisor_graph_edges caps g Hg) as (Hb & _).
  apply (step_conditional g
           {| current := "supervisor"; state := st; calls := k;
              visited := v |} _ _ _ _ _ target target Hh Hb Hu).
  - unfold merge. simpl. by rewrite Hn.
  - destruct Hin as [->|[->|[->| ->]]]; reflexivity.
Qed.

End SupervisorRuns.

(** C3 (as the code has it) — In the supervisor topology, from an initial
    state with one user message, with a decision capability whose first
    answer normalises to "coder" and whose second answer normalises to
    "FINISH", the run visits hub, coder, hub and then ends.  The hub appends
    no message of its own, so the final message sequence has exactly two
    entries in append order: the user message and the coder's answer. *)
Theorem supervisor_coder_then_finish `{PyStr.Methods}
    (caps : Capabilities) (g : CompiledGraph) (user : Message) :
  Supervisor.graph caps = Some g ->
  name user = None ->
  PyStr.lower (PyStr.strip (decide caps "supervisor" 0)) = "coder" ->
  PyStr.upper (PyStr.strip (decide caps "supervisor" 1)) = "FINISH" ->
  invoke g (start g (initial_state [user]))
    (Finished {| messages := [user; AIMessage (act caps "coder" 0) "coder"];
                 next := Some END |}
              ["supervisor"; "coder"; "supervisor"]).
Proof.
  intros Hg Hu H0 H1.
  destruct (supervisor_graph_nodes caps g Hg) as (He & _).
  destruct (supervisor_step_worker caps g Hg) as (_ & Hcoder & _).
  unfold start. rewrite He.
  eapply invoke_running.
  { rewrite (supervisor_step_hub caps g Hg _ _ _ (only_next "coder")
               (asked no_calls) "coder"); [reflexivity| |done|auto].
    rewrite (supervisor_user_turn caps _ _ user);
      [|done|by unfold named_in; rewrite Hu].
    cbn zeta. change (decisions no_calls) with 0. by rewrite H0. }
  eapply invoke_running; [apply Hcoder|].
  apply invoke_finished.
  rewrite (supervisor_step_hub caps g Hg _ _ _ (only_next END)
             (asked (acted (asked no_calls))) END); [reflexivity| |done|auto].
  rewrite (supervisor_report_turn caps _ _
             (AIMessage (act caps "coder" 0) "coder")); [|done..].
  cbn zeta. change (decisions (acted (asked no_calls))) with 1.
  by rewrite H1.
Qed.

Lemma supervisor_coder_then_finish_witness :
  let caps := scripted_caps ["coder"; "FINISH"] "FINISH" "done" in
  let g := compiled (Supervisor.graph (H := PyStr.ascii_methods) caps) in
  invoke g (start g (initial_state [HumanMessage "hi"]))
    (Finished {| messages := [HumanMessage "hi"; AIMessage "done" "coder"];
                 next := Some END |}
              ["supervisor"; "coder"; "supervisor"]).
Proof.
  intros caps g.
  apply (supervisor_coder_then_finish (H := PyStr.ascii_methods) caps g
           (HumanMessage "hi")); reflexivity.
Defined.

(** C3, the claim as stated fails: with the decisions "coder" then "FINISH"
    the run of the supervisor graph on one user message ends after hub,
    coder, hub with two messages, and has no outcome with three. *)
Lemma supervisor_three_entries_counterexample :
  let caps := scripted_caps ["coder"; "FINISH"] "FINISH" "done" in
  let g := compiled (Supervisor.graph (H := PyStr.ascii_methods) caps) in
  Supervisor.graph (H := PyStr.ascii_methods) caps = Some g /\
  run_for g 3 (start g (initial_state [HumanMessage "hi"])) =
    Finished {| messages := [HumanMessage "hi"; AIMessage "done" "coder"];
                next := Some END |}
             ["supervisor"; "coder"; "supervisor"] /\
  ~ exists st trace,
      invoke g (start g (initial_state [HumanMessage "hi"]))
             (Finished st trace) /\
      length (messages st) = 3.
Proof.
  intros caps g.
  assert (run_for g 3 (start g (initial_state [HumanMessage "hi"])) =
          Finished {| messages := [HumanMessage "hi"; AIMessage "done" "coder"];
                      next := Some END |}
                   ["supervisor"; "coder"; "supervisor"]) as Hrun
    by (vm_compute; reflexivity).
  split; [reflexivity|]. split; [exact Hrun|].
  intros (st & trace & Hinv & Hlen).
  assert (invoke g (start g (initial_state [HumanMessage "hi"]))
            (Finished {| messages := [HumanMessage "hi";
                                      AIMessage "done" "coder"];
                         next := Some END |}
                      ["supervisor"; "coder"; "supervisor"])) as Hinv'
    by (apply invoke_run_for; exists 3; split; [exact Hrun|reflexivity]).
  pose proof (invoke_deterministic g _ _ _ Hinv Hinv') as Heq.
  injection Heq as -> _. simpl in Hlen. lia.
Qed.

(** ** The network topology *)

Section NetworkGraph.

Context `{PyStr.Methods} (caps : Capabilities).

Lemma network_compiles : is_Some (Network.network_graph caps).
Proof. vm_compute. eauto. Qed.

Lemma network_graph_nodes g :
  Network.network_graph caps = Some g ->
  entry g = "network_chat" /\
  node_of (builder g) "network_chat" = Some (Network.network_chat_node caps) /\
  node_of (builder g) "network_searcher" =
    Some (Network.network_search_node caps) /\
  node_of (builder g) "network_coder" = Some (Network.network_code_node caps).
Proof. intros Hg. graph_facts Hg. Qed.

Lemma network_graph_edges g :
  Network.network_graph caps = Some g ->
  branch_of (builder g) "network_chat" = Some (Network.network_router, mesh) /\
  branch_of (builder g) "network_searcher" =
    Some (Network.network_router, mesh) /\
  branch_of (builder g) "network_coder" = Some (Network.network_router, mesh).
Proof. intros Hg. graph_facts Hg. Qed.

Lemma network_chat_hint st k :
  exists hint, new_next (Network.network_chat_node caps st k).1 = Some hint /\
               network_hint hint.
Proof.
  unfold Network.network_chat_node, bind, ask_act, ret, network_hint.
  repeat destruct (PyStr.contains _ _); simpl; eauto 10.
Qed.

Lemma network_search_hint st k :
  exists hint, new_next (Network.network_search_node caps st k).1 = Some hint /\
               network_hint hint.
Proof.
  unfold Network.network_search_node, bind, ask_act, ask_decide, ret,
    network_hint.
  repeat destruct (PyStr.contains _ _); simpl; eauto 10.
Qed.

Lemma network_code_hint st k :
  exists hint, new_next (Network.network_code_node caps st k).1 = Some hint /\
               network_hint hint.
Proof.
  unfold Network.network_code_node, bind, ask_act, ask_decide, ret,
    network_hint.
  repeat destruct (PyStr.contains _ _); simpl; eauto 10.
Qed.

(** A turn at a node whose executor returned [hint]: the router follows the
    hint, FINISH ends the run, and no turn fails. *)
Lemma network_step_with g (action : Executor) node st k v u k' hint :
  Network.network_graph caps = Some g ->
  node_of (builder g) node = Some action ->
  branch_of (builder g) node = Some (Network.network_router, mesh) ->
  action st k = (u, k') ->
  new_next u = Some hint ->
  network_hint hint ->
  step g {| current := node; state := st; calls := k; visited := v |} =
  if bool_decide (hint = "FINISH")
  then Finished (merge st u) (v ++ [node])
  else Running {| current := hint; state := merge st u; calls := k';
                  visited := v ++ [node] |}.
Proof.
  intros Hg Hn Hb Ha Hu Hh.
  assert (Network.network_router (merge st u) =
          Some (if bool_decide (hint = "FINISH") then END else hint)) as Hr.
  { unfold Network.network_router, get_next, merge. simpl. rewrite Hu.
    by case_bool_decide. }
  destruct Hh as [->|[->|[->| ->]]];
    rewrite (step_conditional g
               {| current := node; state := st; calls := k; visited := v |}
               _ _ _ _ _ _ _ Hn Hb Ha Hr eq_refl);
    reflexivity.
Qed.

End NetworkGraph.

Section NetworkRuns.

Context `{PyStr.Methods} (caps : Capabilities).
Context (g : CompiledGraph) (Hg : Network.network_graph caps = Some g).

(** What the chat node stores and where it routes, by the markers its
    answer holds. *)
Lemma network_chat_finish st k :
  PyStr.contains Network.ROUTE_searcher (act caps "network_chat" (actions k))
    = false ->
  PyStr.contains Network.ROUTE_coder (act caps "network_chat" (actions k))
    = false ->
  new_next (Network.network_chat_node caps st k).1 = Some "FINISH".
Proof.
  intros H1 H2.
  unfold Network.network_chat_node, bind, ask_act, ret. rewrite H1, H2.
  destruct (PyStr.contains Network.ROUTE_FINISH _); reflexivity.
Qed.

Lemma network_search_finish st k :
  PyStr.contains Network.ROUTE_coder
    (decide caps "network_searcher" (decisions k)) = false ->
  PyStr.contains Network.ROUTE_chat
    (decide caps "network_searcher" (decisions k)) = false ->
  new_next (Network.network_search_node caps st k).1 = Some "FINISH".
Proof.
  intros H1 H2.
  unfold Network.network_search_node, bind, ask_act, ask_decide, ret.
  cbn [decisions acted]. rewrite H1, H2.
  destruct (PyStr.contains Network.ROUTE_FINISH _); reflexivity.
Qed.

Lemma network_code_finish st k :
  PyStr.contains Network.ROUTE_searcher
    (decide caps "network_coder" (decisions k)) = false ->
  PyStr.contains Network.ROUTE_chat
    (decide caps "network_coder" (decisions k)) = false ->
  new_next (Network.network_code_node caps st k).1 = Some "FINISH".
Proof.
  intros H1 H2.
  unfold Network.network_code_node, bind, ask_act, ask_decide, ret.
  cbn [decisions acted]. rewrite H1, H2.
  destruct (PyStr.contains Network.ROUTE_FINISH _); reflexivity.
Qed.

(** A turn at any of the three nodes follows the hint of its executor. *)
Lemma network_step node (action : Executor) st k v :
  (node, action) = ("network_chat", Network.network_chat_node caps) \/
  (node, action) = ("network_searcher", Network.network_search_node caps) \/
  (node, action) = ("network_coder", Network.network_code_node caps) ->
  exists hint,
    new_next (action st k).1 = Some hint /\ network_hint hint /\
    step g {| current := node; state := st; calls := k; visited := v |} =
    if bool_decide (hint = "FINISH")
    then Finished (merge st (action st k).1) (v ++ [node])
    else Running {| current := hint; state := merge st (action st k).1;
                    calls := (action st k).2; visited := v ++ [node] |}.
Proof.
  destruct (network_graph_nodes caps g Hg) as (_ & N1 & N2 & N3).
  destruct (network_graph_edges caps g Hg) as (B1 & B2 & B3).
  intros [[= -> ->]|[[= -> ->]|[= -> ->]]].
  - destruct (network_chat_hint caps st k) as (hint & Hh & Hin).
    exists hint. split; [exact Hh|]. split; [exact Hin|].
    exact (network_step_with caps g _ _ st k v _ _ hint Hg N1 B1
             (surjective_pairing _) Hh Hin).
  - destruct (network_search_hint caps st k) as (hint & Hh & Hin).
    exists hint. split; [exact Hh|]. split; [exact Hin|].
    exact (network_step_with caps g _ _ st k v _ _ hint Hg N2 B2
             (surjective_pairing _) Hh Hin).
  - destruct (network_code_hint caps st k) as (hint & Hh & Hin).
    exists hint. split; [exact Hh|]. split; [exact Hin|].
    exact (network_step_with caps g _ _ st k v _ _ hint Hg N3 B3
             (surjective_pairing _) Hh Hin).
Qed.

End NetworkRuns.

(** C9 — In the network topology the hint an executor returns is always one
    of network_chat, network_searcher, network_coder, FINISH.  An answer
    that holds none of the markers a node looks for (already when it holds
    neither of the two that name a node) gives FINISH.  So a turn at a node
    of the mesh never fails on an undeclared route: it moves to the node the
    hint names, and ends the run on FINISH. *)
Theorem network_hint_closed `{PyStr.Methods} (caps : Capabilities)
    (st : AgentState) (k : Calls) :
  (Forall (fun action : Executor =>
             exists hint, new_next (action st k).1 = Some hint /\
                          network_hint hint)
          [Network.network_chat_node caps; Network.network_search_node caps;
           Network.network_code_node caps]) /\
  (PyStr.contains Network.ROUTE_searcher (act caps "network_chat" (actions k))
     = false ->
   PyStr.contains Network.ROUTE_coder (act caps "network_chat" (actions k))
     = false ->
   new_next (Network.network_chat_node caps st k).1 = Some "FINISH") /\
  (PyStr.contains Network.ROUTE_coder
     (decide caps "network_searcher" (decisions k)) = false ->
   PyStr.contains Network.ROUTE_chat
     (decide caps "network_searcher" (decisions k)) = false ->
   new_next (Network.network_search_node caps st k).1 = Some "FINISH") /\
  (PyStr.contains Network.ROUTE_searcher
     (decide caps "network_coder" (decisions k)) = false ->
   PyStr.contains Network.ROUTE_chat
     (decide caps "network_coder" (decisions k)) = false ->
   new_next (Network.network_code_node caps st k).1 = Some "FINISH") /\
  (forall g v,
     Network.network_graph caps = Some g ->
     Forall (fun '(node, action) =>
               exists hint,
                 new_next (action st k).1 = Some hint /\
                 step g {| current := node; state := st; calls := k;
                           visited := v |} =
                 if bool_decide (hint = "FINISH")
                 then Finished (merge st (action st k).1) (v ++ [node])
                 else Running {| current := hint;
                                 state := merge st (action st k).1;
                                 calls := (action st k).2;
                                 visited := v ++ [node] |})
            [("network_chat", Network.network_chat_node caps);
             ("network_searcher", Network.network_search_node caps);
             ("network_coder", Network.network_code_node caps)]).
Proof.
  split.
  { repeat constructor.
    - apply network_chat_hint.
    - apply network_search_hint.
    - apply network_code_hint. }
  split; [apply network_chat_finish|].
  split; [apply network_search_finish|].
  split; [apply network_code_finish|].
  intros g v Hg.
  repeat constructor.
  - destruct (network_step caps g Hg "network_chat" _ st k v (or_introl eq_refl))
      as (hint & Hh & _ & Hs).
    exists hint. split; [exact Hh|exact Hs].
  - destruct (network_step caps g Hg "network_searcher" _ st k v
                (or_intror (or_introl eq_refl))) as (hint & Hh & _ & Hs).
    exists hint. split; [exact Hh|exact Hs].
  - destruct (network_step caps g Hg "network_coder" _ st k v
                (or_intror (or_intror eq_refl))) as (hint & Hh & _ & Hs).
    exists hint. split; [exact Hh|exact Hs].
Qed.

Lemma network_hint_closed_witness :
  let caps := constant_caps "no marker here" "plain answer" in
  let st := initial_state [HumanMessage "hi"] in
  let g := compiled (Network.network_graph (H := PyStr.ascii_methods) caps) in
  new_next (Network.network_chat_node (H := PyStr.ascii_methods) caps st no_calls).1
    = Some "FINISH" /\
  new_next (Network.network_search_node caps st no_calls).1 = Some "FINISH" /\
  new_next (Network.network_code_node caps st no_calls).1 = Some "FINISH" /\
  exists hint,
    new_next (Network.network_chat_node (H := PyStr.ascii_methods) caps st no_calls).1
      = Some hint /\
    step g (start g st) =
    if bool_decide (hint = "FINISH")
    then Finished
           (merge st (Network.network_chat_node (H := PyStr.ascii_methods)
                        caps st no_calls).1)
           ([] ++ ["network_chat"])
    else Running
           {| current := hint;
              state := merge st (Network.network_chat_node
                                   (H := PyStr.ascii_methods) caps st no_calls).1;
              calls := (Network.network_chat_node (H := PyStr.ascii_methods)
                          caps st no_calls).2;
              visited := [] ++ ["network_chat"] |}.
Proof.
  intros caps st g.
  destruct (network_hint_closed (H := PyStr.ascii_methods) caps st no_calls)
    as (_ & Hchat & Hsearch & Hcode & Hstep).
  split; [apply Hchat; reflexivity|].
  split; [apply Hsearch; reflexivity|].
  split; [apply Hcode; reflexivity|].
  specialize (Hstep g [] eq_refl).
  apply Forall_cons_1 in Hstep as [Hstep _]. exact Hstep.
Defined.

Section NetworkMarker.

Context `{PyStr.Methods} (caps : Capabilities).

Lemma ROUTE_coder_present pre post :
  PyStr.contains Network.ROUTE_coder (pre +:+ Network.ROUTE_coder +:+ post)
    = true.
Proof.
  apply contains_app_l.
  destruct (Network.ROUTE_coder +:+ post) eqn:E; [discriminate|].
  rewrite contains_cons, <- E, sprefix_self_app. reflexivity.
Qed.

Lemma ROUTE_coder_erased pre post :
  PyStr.contains Network.ROUTE_coder (pre +:+ post) = false ->
  PyStr.erase Network.ROUTE_coder (pre +:+ Network.ROUTE_coder +:+ post) =
  pre +:+ post.
Proof. intros Hc. by apply (erase_one "[" "ROUTE:network_coder]"). Qed.

(** The chat node on an answer [pre ++ marker ++ post] that routes to the
    coder. *)
Lemma network_chat_to_coder st k pre post :
  act caps "network_chat" (actions k) =
    pre +:+ Network.ROUTE_coder +:+ post ->
  PyStr.contains Network.ROUTE_searcher
    (pre +:+ Network.ROUTE_coder +:+ post) = false ->
  PyStr.contains Network.ROUTE_coder (pre +:+ post) = false ->
  Network.network_chat_node caps st k =
    ({| new_messages :=
          [AIMessage (PyStr.strip (pre +:+ post)) "network_chatbot"];
        new_next := Some "network_coder" |}, acted k).
Proof.
  intros Ha Hs Hc.
  unfold Network.network_chat_node, bind, ask_act, ret.
  rewrite Ha, Hs, ROUTE_coder_present, ROUTE_coder_erased by exact Hc.
  reflexivity.
Qed.

End NetworkMarker.




(** *** Runs of the mesh that never end *)

Section NetworkEndless.

Context `{PyStr.Methods} (caps : Capabilities).
Context (g : CompiledGraph) (Hg : Network.network_graph caps = Some g).
Hypothesis Hroutes : always_routes_on caps.

Lemma network_chat_goes_on st k hint :
  new_next (Network.network_chat_node caps st k).1 = Some hint ->
  hint = "network_searcher" \/ hint = "network_coder".
Proof.
  destruct Hroutes as (Hc & _). specialize (Hc (actions k)).
  unfold Network.network_chat_node, bind, ask_act, ret.
  destruct (PyStr.contains Network.ROUTE_searcher _);
    [intros [= <-]; by left|].
  destruct (PyStr.contains Network.ROUTE_coder _);
    [intros [= <-]; by right|discriminate].
Qed.

Lemma network_search_goes_on st k hint :
  new_next (Network.network_search_node caps st k).1 = Some hint ->
  hint = "network_coder" \/ hint = "network_chat".
Proof.
  destruct Hroutes as (_ & Hs & _). specialize (Hs (decisions k)).
  unfold Network.network_search_node, bind, ask_act, ask_decide, ret.
  cbn [decisions acted].
  destruct (PyStr.contains Network.ROUTE_coder _);
    [intros [= <-]; by left|].
  destruct (PyStr.contains Network.ROUTE_chat _);
    [intros [= <-]; by right|discriminate].
Qed.

Lemma network_code_goes_on st k hint :
  new_next (Network.network_code_node caps st k).1 = Some hint ->
  hint = "network_searcher" \/ hint = "network_chat".
Proof.
  destruct Hroutes as (_ & _ & Hc). specialize (Hc (decisions k)).
  unfold Network.network_code_node, bind, ask_act, ask_decide, ret.
  cbn [decisions acted].
  destruct (PyStr.contains Network.ROUTE_searcher _);
    [intros [= <-]; by left|].
  destruct (PyStr.contains Network.ROUTE_chat _);
    [intros [= <-]; by right|discriminate].
Qed.

Lemma network_step_goes_on c :
  in_mesh c -> exists c', step g c = Running c' /\ in_mesh c'.
Proof.
  destruct c as [node st k v]. unfold in_mesh. simpl.
  intros [->|[->| ->]].
  - destruct (network_step caps g Hg "network_chat" _ st k v
                (or_introl eq_refl)) as (hint & Hh & _ & Hs).
    rewrite Hs. clear Hs.
    destruct (network_chat_goes_on st k hint Hh) as [->| ->];
      eexists; (split; [reflexivity|]); simpl; tauto.
  - destruct (network_step caps g Hg "network_searcher" _ st k v
                (or_intror (or_introl eq_refl))) as (hint & Hh & _ & Hs).
    rewrite Hs. clear Hs.
    destruct (network_search_goes_on st k hint Hh) as [->| ->];
      eexists; (split; [reflexivity|]); simpl; tauto.
  - destruct (network_step caps g Hg "network_coder" _ st k v
                (or_intror (or_intror eq_refl))) as (hint & Hh & _ & Hs).
    rewrite Hs. clear Hs.
    destruct (network_code_goes_on st k hint Hh) as [->| ->];
      eexists; (split; [reflexivity|]); simpl; tauto.
Qed.

(** Every number of turns can be taken, and the run has no outcome. *)
Lemma network_endless st :
  (forall n, exists c,
      run_for g n (start g st) = Running c /\ length (visited c) = n) /\
  ~ exists o, invoke g (start g st) o.
Proof.
  assert (in_mesh (start g st)) as Hstart.
  { destruct (network_graph_nodes caps g Hg) as (He & _).
    left. exact He. }
  assert (forall n, exists c,
             run_for g n (start g st) = Running c /\ length (visited c) = n)
    as Hn.
  { intros n.
    destruct (run_for_invariant g in_mesh network_step_goes_on n _ Hstart)
      as (c & Hr & _ & Hl).
    exists c. split; [exact Hr|exact Hl]. }
  split; [exact Hn|].
  apply endless_no_outcome. intros n.
  destruct (Hn n) as (c & -> & _). reflexivity.
Qed.

End NetworkEndless.




(** ** The hierarchical topology *)

Section HierarchicalGraph.

Context `{PyStr.Methods} (caps : Capabilities).

Lemma hierarchical_compiles : is_Some (Hierarchical.hierarchical_graph caps).
Proof. vm_compute. eauto. Qed.

Lemma hierarchical_graph_supervisors g :
  Hierarchical.hierarchical_graph caps = Some g ->
  entry g = "top_supervisor" /\
  node_of (builder g) "top_supervisor" =
    Some (Hierarchical.top_level_supervisor caps) /\
  node_of (builder g) "research_team" =
    Some (Hierarchical.research_team_supervisor caps) /\
  node_of (builder g) "analysis_team" =
    Some (Hierarchical.analysis_team_supervisor caps) /\
  node_of (builder g) "execution_team" =
    Some (Hierarchical.execution_team_supervisor caps).
Proof. intros Hg. graph_facts Hg. Qed.

Lemma hierarchical_graph_branches g :
  Hierarchical.hierarchical_graph caps = Some g ->
  branch_of (builder g) "top_supervisor" =
    Some (Hierarchical.top_supervisor_final_router,
          dict [("research_team", "research_team");
                ("analysis_team", "analysis_team");
                ("execution_team", "execution_team");
                (END, END)]) /\
  branch_of (builder g) "research_team" =
    Some (Hierarchical.team_supervisor_router,
          dict [("researcher", "researcher");
                ("searcher", "searcher");
                ("data_collector", "data_collector");
                ("top_supervisor", "top_supervisor")]) /\
  branch_of (builder g) "analysis_team" =
    Some (Hierarchical.team_supervisor_router,
          dict [("analyst", "analyst");
                ("calculator", "calculator");
                ("visualizer", "visualizer");
                ("top_supervisor", "top_supervisor")]) /\
  branch_of (builder g) "execution_team" =
    Some (Hierarchical.team_supervisor_router,
          dict [("coder", "coder");
                ("tester", "tester");
                ("deployer", "deployer");
                ("top_supervisor", "top_supervisor")]).
Proof. intros Hg. graph_facts Hg. Qed.

(** Every worker is registered under its name and has one edge, to its
    team. *)
Lemma hierarchical_graph_workers g :
  Hierarchical.hierarchical_graph caps = Some g ->
  Forall (fun '(node, team) =>
            node_of (builder g) node = Some (Hierarchical.worker caps node node) /\
            branch_of (builder g) node = None /\
            successors (builder g) node = [team])
         [("researcher", "research_team"); ("searcher", "research_team");
          ("data_collector", "research_team");
          ("analyst", "analysis_team"); ("calculator", "analysis_team");
          ("visualizer", "analysis_team");
          ("coder", "execution_team"); ("tester", "execution_team");
          ("deployer", "execution_team")].
Proof.
  intros Hg. apply compiled_is in Hg. subst g.
  repeat constructor; reflexivity.
Qed.

End HierarchicalGraph.

Section HierarchicalRuns.

Context `{PyStr.Methods} (caps : Capabilities).

(** The router of the root, by cases on the reports in the history. *)
Lemma top_supervisor_final_router_spec state :
  Hierarchical.top_supervisor_final_router state =
  Some (if has_report (messages state) then END
        else get_next state "research_team").
Proof.
  unfold Hierarchical.top_supervisor_final_router, has_report.
  induction (messages state) as [|m msgs IH]; [reflexivity|].
  simpl. destruct (named_in m Hierarchical.supervisor_names); [reflexivity|].
  exact IH.
Qed.

Lemma has_report_app msgs new :
  has_report (msgs ++ new) = has_report msgs || has_report new.
Proof. apply existsb_app. Qed.

Lemma has_report_elem msgs :
  has_report msgs = true <->
  exists m, m ∈ msgs /\ named_in m Hierarchical.supervisor_names = true.
Proof.
  unfold has_report. rewrite existsb_exists.
  by setoid_rewrite list_elem_of_In.
Qed.

Lemma named_team_valid k :
  named_team caps k = "research_team" \/ named_team caps k = "analysis_team" \/
  named_team caps k = "execution_team".
Proof.
  unfold named_team, PyStr.member, Hierarchical.valid_teams.
  case_bool_decide as Hin; [|by left].
  rewrite !elem_of_cons, elem_of_nil in Hin. tauto.
Qed.

Lemma top_level_supervisor_spec st k :
  exists task_message,
    Hierarchical.top_level_supervisor caps st k =
    ({| new_messages := [AIMessage task_message "top_supervisor"];
        new_next := Some (named_team caps k) |}, asked k).
Proof.
  unfold Hierarchical.top_level_supervisor, bind, ask_decide, ret, named_team.
  cbn zeta. destruct (PyStr.member _ _); eexists; reflexivity.
Qed.

(** A team node whose caller is not the root reports completion without
    asking for a decision. *)
Lemma team_reports st k :
  Hierarchical.last_named (messages st) "top_supervisor" = false ->
  Hierarchical.research_team_supervisor caps st k =
    ({| new_messages := [AIMessage "研究团队任务完成" "research_supervisor"];
        new_next := Some "FINISH" |}, k) /\
  Hierarchical.analysis_team_supervisor caps st k =
    ({| new_messages := [AIMessage "分析团队任务完成" "analysis_supervisor"];
        new_next := Some "FINISH" |}, k) /\
  Hierarchical.execution_team_supervisor caps st k =
    ({| new_messages := [AIMessage "执行团队任务完成" "execution_supervisor"];
        new_next := Some "FINISH" |}, k).
Proof.
  intros Hl.
  unfold Hierarchical.research_team_supervisor,
    Hierarchical.analysis_team_supervisor,
    Hierarchical.execution_team_supervisor.
  rewrite Hl. repeat split; reflexivity.
Qed.

Lemma ambiguous_not_root msgs :
  ambiguous_caller msgs ->
  Hierarchical.last_named msgs "top_supervisor" = false.
Proof.
  unfold Hierarchical.last_named.
  intros [->|(m & -> & Hm)]; [reflexivity|].
  rewrite Hm. reflexivity.
Qed.

(** The execution team called by the root picks a worker. *)
Lemma execution_team_dispatches st k :
  Hierarchical.last_named (messages st) "top_supervisor" = true ->
  Hierarchical.execution_team_supervisor caps st k =
    (let choice := PyStr.lower (PyStr.strip
                     (decide caps "execution_team" (decisions k))) in
     let choice := if PyStr.member choice ["coder"; "tester"; "deployer"]
                   then choice else "coder" in
     {| new_messages :=
          [AIMessage ("执行团队接收任务，分配给" +:+ choice)
                     "execution_supervisor"];
        new_next := Some choice |}, asked k).
Proof.
  intros Hl. unfold Hierarchical.execution_team_supervisor.
  rewrite Hl. unfold bind, ask_decide, ret. cbn zeta.
  destruct (PyStr.member _ _); reflexivity.
Qed.

End HierarchicalRuns.

Section HierarchicalSteps.

Context `{PyStr.Methods} (caps : Capabilities).
Context (g : CompiledGraph)
        (Hg : Hierarchical.hierarchical_graph caps = Some g).

(** A turn at the root: it ends the run when the history holds a report,
    and hands over to the team it named otherwise. *)
Lemma root_step st k v :
  step g {| current := "top_supervisor"; state := st; calls := k;
            visited := v |} =
  if has_report (messages st)
  then Finished (merge st (Hierarchical.top_level_supervisor caps st k).1)
                (v ++ ["top_supervisor"])
  else Running {| current := named_team caps k;
                  state := merge st
                             (Hierarchical.top_level_supervisor caps st k).1;
                  calls := asked k;
                  visited := v ++ ["top_supervisor"] |}.
Proof.
  destruct (hierarchical_graph_supervisors caps g Hg) as (_ & Hn & _).
  destruct (hierarchical_graph_branches caps g Hg) as (Hb & _).
  destruct (top_level_supervisor_spec caps st k) as (task & Hu).
  rewrite Hu. cbn [fst].
  assert (Hierarchical.top_supervisor_final_router
            (merge st {| new_messages := [AIMessage task "top_supervisor"];
                         new_next := Some (named_team caps k) |}) =
          Some (if has_report (messages st) then END
                else named_team caps k)) as Hr.
  { rewrite top_supervisor_final_router_spec. unfold merge.
    cbn [messages new_messages]. rewrite has_report_app.
    change (has_report [AIMessage task "top_supervisor"]) with false.
    rewrite orb_false_r. reflexivity. }
  destruct (has_report (messages st)).
  - exact (step_conditional g
             {| current := "top_supervisor"; state := st; calls := k;
                visited := v |} _ _ _ _ _ END END Hn Hb Hu Hr eq_refl).
  - destruct (named_team_valid caps k) as [E|[E|E]]; rewrite E in *.
    + exact (step_conditional g
               {| current := "top_supervisor"; state := st; calls := k;
                  visited := v |} _ _ _ _ _ _ _ Hn Hb Hu Hr eq_refl).
    + exact (step_conditional g
               {| current := "top_supervisor"; state := st; calls := k;
                  visited := v |} _ _ _ _ _ _ _ Hn Hb Hu Hr eq_refl).
    + exact (step_conditional g
               {| current := "top_supervisor"; state := st; calls := k;
                  visited := v |} _ _ _ _ _ _ _ Hn Hb Hu Hr eq_refl).
Qed.

(** A turn at a team node whose executor returned FINISH goes up to the
    root. *)
Lemma team_step_up node (action : Executor) path_map st k v u k' :
  node_of (builder g) node = Some action ->
  branch_of (builder g) node =
    Some (Hierarchical.team_supervisor_router, path_map) ->
  path_map !! "top_supervisor" = Some "top_supervisor" ->
  action st k = (u, k') ->
  new_next u = Some "FINISH" ->
  step g {| current := node; state := st; calls := k; visited := v |} =
  Running {| current := "top_supervisor"; state := merge st u;
             calls := k'; visited := v ++ [node] |}.
Proof.
  intros Hn Hb Hp Ha Hu.
  assert (Hierarchical.team_supervisor_router (merge st u) =
          Some "top_supervisor") as Hr.
  { unfold Hierarchical.team_supervisor_router, get_next, merge.
    cbn [next]. rewrite Hu. reflexivity. }
  exact (step_conditional g
           {| current := node; state := st; calls := k; visited := v |}
           _ _ _ _ _ _ _ Hn Hb Ha Hr Hp).
Qed.

(** A turn at a team node whose executor named a worker goes down to it. *)
Lemma team_step_down node (action : Executor) path_map st k v u k' choice :
  node_of (builder g) node = Some action ->
  branch_of (builder g) node =
    Some (Hierarchical.team_supervisor_router, path_map) ->
  action st k = (u, k') ->
  new_next u = Some choice ->
  choice <> "FINISH" -> choice <> END ->
  path_map !! choice = Some choice ->
  step g {| current := node; state := st; calls := k; visited := v |} =
  Running {| current := choice; state := merge st u;
             calls := k'; visited := v ++ [node] |}.
Proof.
  intros Hn Hb Ha Hu Hf He Hp.
  assert (Hierarchical.team_supervisor_router (merge st u) = Some choice)
    as Hr.
  { unfold Hierarchical.team_supervisor_router, get_next, merge.
    cbn [next]. rewrite Hu. by rewrite bool_decide_eq_false_2. }
  rewrite (step_conditional g
             {| current := node; state := st; calls := k; visited := v |}
             _ _ _ _ _ _ _ Hn Hb Ha Hr Hp).
  by rewrite bool_decide_eq_false_2.
Qed.

(** A team node called by anyone but the root reports up. *)
Lemma team_step_report st k v :
  Hierarchical.last_named (messages st) "top_supervisor" = false ->
  Forall (fun '(node, action) =>
            step g {| current := node; state := st; calls := k;
                      visited := v |} =
            Running {| current := "top_supervisor";
                       state := merge st (action st k).1;
                       calls := k; visited := v ++ [node] |})
         [("research_team", Hierarchical.research_team_supervisor caps);
          ("analysis_team", Hierarchical.analysis_team_supervisor caps);
          ("execution_team", Hierarchical.execution_team_supervisor caps)].
Proof.
  intros Hl.
  destruct (hierarchical_graph_supervisors caps g Hg)
    as (_ & _ & N1 & N2 & N3).
  destruct (hierarchical_graph_branches caps g Hg) as (_ & B1 & B2 & B3).
  destruct (team_reports caps st k Hl) as (R1 & R2 & R3).
  repeat constructor.
  - rewrite R1. exact (team_step_up _ _ _ st k v _ _ N1 B1 eq_refl R1 eq_refl).
  - rewrite R2. exact (team_step_up _ _ _ st k v _ _ N2 B2 eq_refl R2 eq_refl).
  - rewrite R3. exact (team_step_up _ _ _ st k v _ _ N3 B3 eq_refl R3 eq_refl).
Qed.

(** A worker answers under its name and reports to its team. *)
Lemma worker_step st k v :
  Forall (fun '(node, team) =>
            step g {| current := node; state := st; calls := k;
                      visited := v |} =
            Running {| current := team;
                       state := merge st
                         {| new_messages :=
                              [AIMessage (act caps node (actions k)) node];
                            new_next := None |};
                       calls := acted k; visited := v ++ [node] |})
         [("researcher", "research_team"); ("searcher", "research_team");
          ("data_collector", "research_team");
          ("analyst", "analysis_team"); ("calculator", "analysis_team");
          ("visualizer", "analysis_team");
          ("coder", "execution_team"); ("tester", "execution_team");
          ("deployer", "execution_team")].
Proof.
  pose proof (hierarchical_graph_workers caps g Hg) as Hw.
  repeat match goal with
         | Hw : Forall _ (_ :: _) |- Forall _ ((?node, _) :: _) =>
             apply Forall_cons_1 in Hw; destruct Hw as [(Hn & Hb & Hs) Hw];
             constructor;
             [exact (step_unconditional g
                       {| current := node; state := st; calls := k;
                          visited := v |} _ _ _ _ Hn Hb Hs eq_refl)
             |clear Hn Hb Hs]
         end.
  constructor.
Qed.

End HierarchicalSteps.

(** C6 — A team node of the hierarchical topology that is invoked on an empty
    history, or on a history whose most recent message carries no name,
    takes the report branch: it asks for no decision, names no worker,
    appends its completion message with the hint FINISH, and the run goes up
    to the root. *)
Theorem team_defaults_to_report `{PyStr.Methods}
    (caps : Capabilities) (st : AgentState) (k : Calls) :
  ambiguous_caller (messages st) ->
  Forall (fun '(action, report) =>
            (action : Executor) st k =
            ({| new_messages := [report]; new_next := Some "FINISH" |}, k))
         [(Hierarchical.research_team_supervisor caps,
           AIMessage "研究团队任务完成" "research_supervisor");
          (Hierarchical.analysis_team_supervisor caps,
           AIMessage "分析团队任务完成" "analysis_supervisor");
          (Hierarchical.execution_team_supervisor caps,
           AIMessage "执行团队任务完成" "execution_supervisor")] /\
  (forall g v,
     Hierarchical.hierarchical_graph caps = Some g ->
     Forall (fun '(node, action) =>
               step g {| current := node; state := st; calls := k;
                         visited := v |} =
               Running {| current := "top_supervisor";
                          state := merge st ((action : Executor) st k).1;
                          calls := k; visited := v ++ [node] |})
            [("research_team", Hierarchical.research_team_supervisor caps);
             ("analysis_team", Hierarchical.analysis_team_supervisor caps);
             ("execution_team", Hierarchical.execution_team_supervisor caps)]).
Proof.
  intros Ha. apply ambiguous_not_root in Ha.
  destruct (team_reports caps st k Ha) as (R1 & R2 & R3).
  split; [repeat constructor; assumption|].
  intros g v Hg. exact (team_step_report caps g Hg st k v Ha).
Qed.

Lemma team_defaults_to_report_witness :
  let caps := constant_caps "tester" "done" in
  let g := compiled (Hierarchical.hierarchical_graph (H := PyStr.ascii_methods) caps) in
  (Hierarchical.execution_team_supervisor (H := PyStr.ascii_methods) caps
     (initial_state []) no_calls =
   ({| new_messages := [AIMessage "执行团队任务完成" "execution_supervisor"];
       new_next := Some "FINISH" |}, no_calls)) /\
  step g {| current := "execution_team";
            state := initial_state [HumanMessage "hi"];
            calls := no_calls; visited := [] |} =
  Running {| current := "top_supervisor";
             state := {| messages :=
                           [HumanMessage "hi";
                            AIMessage "执行团队任务完成" "execution_supervisor"];
                         next := Some "FINISH" |};
             calls := no_calls; visited := ["execution_team"] |}.
Proof.
  intros caps g. split.
  - destruct (team_defaults_to_report (H := PyStr.ascii_methods) caps
                (initial_state []) no_calls (or_introl eq_refl)) as (Hf & _).
    apply Forall_cons_1 in Hf as [_ Hf].
    apply Forall_cons_1 in Hf as [_ Hf].
    apply Forall_cons_1 in Hf as [Hf _]. exact Hf.
  - destruct (team_defaults_to_report (H := PyStr.ascii_methods) caps
                (initial_state [HumanMessage "hi"]) no_calls
                (or_intror (ex_intro _ (HumanMessage "hi")
                              (conj eq_refl eq_refl)))) as (_ & Hs).
    specialize (Hs g [] eq_refl).
    apply Forall_cons_1 in Hs as [_ Hs].
    apply Forall_cons_1 in Hs as [_ Hs].
    apply Forall_cons_1 in Hs as [Hs _]. exact Hs.
Defined.



Section HierarchicalDescent.

Context `{PyStr.Methods} (caps : Capabilities).
Context (g : CompiledGraph)
        (Hg : Hierarchical.hierarchical_graph caps = Some g).

(** The tester answers and reports to the execution team. *)
Lemma tester_step st k v :
  step g {| current := "tester"; state := st; calls := k; visited := v |} =
  Running {| current := "execution_team";
             state := merge st
                        {| new_messages :=
                             [AIMessage (act caps "tester" (actions k))
                                        "tester"];
                           new_next := None |};
             calls := acted k; visited := v ++ ["tester"] |}.
Proof.
  pose proof (worker_step caps g Hg st k v) as Hw.
  do 7 (apply Forall_cons_1 in Hw as [_ Hw]).
  apply Forall_cons_1 in Hw as [Hw _]. exact Hw.
Qed.

(** The execution team, called by the root with a decision that names the
    tester, hands over to the tester. *)
Lemma execution_team_to_tester st k v :
  Hierarchical.last_named (messages st) "top_supervisor" = true ->
  PyStr.lower (PyStr.strip (decide caps "execution_team" (decisions k))) =
    "tester" ->
  step g {| current := "execution_team"; state := st; calls := k;
            visited := v |} =
  Running {| current := "tester";
             state := merge st
                        {| new_messages :=
                             [AIMessage "执行团队接收任务，分配给tester"
                                        "execution_supervisor"];
                           new_next := Some "tester" |};
             calls := asked k; visited := v ++ ["execution_team"] |}.
Proof.
  intros Hl Hd.
  destruct (hierarchical_graph_supervisors caps g Hg)
    as (_ & _ & _ & _ & N3).
  destruct (hierarchical_graph_branches caps g Hg) as (_ & _ & _ & B3).
  pose proof (execution_team_dispatches caps st k Hl) as Ha.
  cbn zeta in Ha. rewrite Hd in Ha.
  exact (team_step_down g _ _ _ st k v _ _ "tester" N3 B3 Ha eq_refl
           ltac:(discriminate) ltac:(discriminate) eq_refl).
Qed.

(** The execution team, called after a worker, reports to the root. *)
Lemma execution_team_reports_up st k v :
  Hierarchical.last_named (messages st) "top_supervisor" = false ->
  step g {| current := "execution_team"; state := st; calls := k;
            visited := v |} =
  Running {| current := "top_supervisor";
             state := merge st
                        {| new_messages :=
                             [AIMessage "执行团队任务完成"
                                        "execution_supervisor"];
                           new_next := Some "FINISH" |};
             calls := k; visited := v ++ ["execution_team"] |}.
Proof.
  intros Hl.
  pose proof (team_step_report caps g Hg st k v Hl) as Hs.
  destruct (team_reports caps st k Hl) as (_ & _ & R3).
  do 2 (apply Forall_cons_1 in Hs as [_ Hs]).
  apply Forall_cons_1 in Hs as [Hs _]. rewrite R3 in Hs. exact Hs.
Qed.

End HierarchicalDescent.

(** C5 — In the hierarchical topology, from an initial state with one user
    message, with a root decision that always normalises to "execution_team"
    and a team decision that always normalises to "tester", the run visits
    root, execution_team, tester, execution_team, root and then ends: the
    tester reports to its team, the team called after its worker reports to
    the root, and the root, finding a team report, ends the run.  The final
    history holds the user message followed by the messages of root, team,
    tester, team and root. *)
Theorem hierarchical_execution_tester `{PyStr.Methods}
    (caps : Capabilities) (g : CompiledGraph) (user : Message) :
  Hierarchical.hierarchical_graph caps = Some g ->
  name user = None ->
  (forall i, PyStr.lower (PyStr.strip (decide caps "top_supervisor" i)) =
             "execution_team") ->
  (forall i, PyStr.lower (PyStr.strip (decide caps "execution_team" i)) =
             "tester") ->
  exists st,
    invoke g (start g (initial_state [user]))
      (Finished st ["top_supervisor"; "execution_team"; "tester";
                    "execution_team"; "top_supervisor"]) /\
    name <$> messages st =
      [None; Some "top_supervisor"; Some "execution_supervisor";
       Some "tester"; Some "execution_supervisor"; Some "top_supervisor"].
Proof.
  intros Hg Hu Hroot Hteam.
  destruct (hierarchical_graph_supervisors caps g Hg) as (He & _).
  assert (forall k, named_team caps k = "execution_team") as Hnamed.
  { intros k. unfold named_team. rewrite Hroot. reflexivity. }
  destruct (top_level_supervisor_spec caps (initial_state [user]) no_calls)
    as (task1 & Htask1).
  pose proof (root_step caps g Hg (initial_state [user]) no_calls []) as S1.
  rewrite Htask1, Hnamed in S1.
  replace (has_report (messages (initial_state [user]))) with false in S1
    by (unfold has_report, named_in; simpl; by rewrite Hu).
  set (st1 := merge (initial_state [user]) _) in S1.
  pose proof (execution_team_to_tester caps g Hg st1 (asked no_calls)
                ([] ++ ["top_supervisor"]) eq_refl (Hteam _)) as S2.
  set (st2 := merge st1 _) in S2.
  pose proof (tester_step caps g Hg st2 (asked (asked no_calls))
                (([] ++ ["top_supervisor"]) ++ ["execution_team"])) as S3.
  set (st3 := merge st2 _) in S3.
  pose proof (execution_team_reports_up caps g Hg st3
                (acted (asked (asked no_calls)))
                ((([] ++ ["top_supervisor"]) ++ ["execution_team"])
                   ++ ["tester"]) eq_refl) as S4.
  set (st4 := merge st3 _) in S4.
  pose proof (root_step caps g Hg st4 (acted (asked (asked no_calls)))
                (((([] ++ ["top_supervisor"]) ++ ["execution_team"])
                    ++ ["tester"]) ++ ["execution_team"])) as S5.
  destruct (top_level_supervisor_spec caps st4 (acted (asked (asked no_calls))))
    as (task2 & Htask2).
  rewrite Htask2 in S5.
  assert (has_report (messages st4) = true) as Hrep.
  { subst st4. unfold merge at 1. cbn [messages new_messages].
    rewrite has_report_app. apply orb_true_intro. right. reflexivity. }
  rewrite Hrep in S5.
  eexists. split.
  - unfold start. rewrite He.
    eapply invoke_running; [exact S1|].
    eapply invoke_running; [exact S2|].
    eapply invoke_running; [exact S3|].
    eapply invoke_running; [exact S4|].
    apply invoke_finished. exact S5.
  - simpl. by rewrite Hu.
Qed.

Lemma hierarchical_execution_tester_witness :
  let caps := tiered_caps "execution_team" "tester" "all tests pass" in
  let g := compiled (Hierarchical.hierarchical_graph (H := PyStr.ascii_methods) caps) in
  exists st,
    invoke g (start g (initial_state [HumanMessage "build it"]))
      (Finished st ["top_supervisor"; "execution_team"; "tester";
                    "execution_team"; "top_supervisor"]) /\
    name <$> messages st =
      [None; Some "top_supervisor"; Some "execution_supervisor";
       Some "tester"; Some "execution_supervisor"; Some "top_supervisor"].
Proof.
  intros caps g.
  apply (hierarchical_execution_tester (H := PyStr.ascii_methods) caps g
           (HumanMessage "build it")); [reflexivity|reflexivity| |];
    intros i; reflexivity.
Defined.

(** ** Decisions outside the allowed targets *)

Section Fallback.

Context `{PyStr.Methods} (caps : Capabilities).

(** A token outside the allowed targets of an edge is none of the names
    the node accepts, which are among these targets. *)
Lemma outside_allowed (token : string) (names : list string)
    (allowed : gset string) :
  list_to_set names ⊆ allowed -> token ∉ allowed ->
  PyStr.member token names = false.
Proof.
  intros Hsub Hnot. unfold PyStr.member. apply bool_decide_eq_false_2.
  intros Hin. apply Hnot, Hsub, elem_of_list_to_set, Hin.
Qed.

Lemma hierarchical_allowed_targets g :
  Hierarchical.hierarchical_graph caps = Some g ->
  allowed_targets (builder g) "top_supervisor" =
    list_to_set Hierarchical.valid_teams ∪ {[END]} /\
  allowed_targets (builder g) "research_team" =
    list_to_set ["researcher"; "searcher"; "data_collector"]
      ∪ {["top_supervisor"]} /\
  allowed_targets (builder g) "analysis_team" =
    list_to_set ["analyst"; "calculator"; "visualizer"]
      ∪ {["top_supervisor"]} /\
  allowed_targets (builder g) "execution_team" =
    list_to_set ["coder"; "tester"; "deployer"] ∪ {["top_supervisor"]}.
Proof.
  intros Hg.
  destruct (hierarchical_graph_branches caps g Hg) as (B0 & B1 & B2 & B3).
  unfold allowed_targets. rewrite B0, B1, B2, B3.
  repeat split; vm_compute; exact eq_refl.
Qed.

(** The teams called by the root: the decision is normalised by [strip]
    and [lower] and checked against the team's workers. *)
Lemma research_team_dispatches st k :
  Hierarchical.last_named (messages st) "top_supervisor" = true ->
  Hierarchical.research_team_supervisor caps st k =
    (let choice := PyStr.lower (PyStr.strip
                     (decide caps "research_team" (decisions k))) in
     let choice :=
       if PyStr.member choice ["researcher"; "searcher"; "data_collector"]
       then choice else "researcher" in
     {| new_messages :=
          [AIMessage ("研究团队接收任务，分配给" +:+ choice)
                     "research_supervisor"];
        new_next := Some choice |}, asked k).
Proof.
  intros Hl. unfold Hierarchical.research_team_supervisor.
  rewrite Hl. unfold bind, ask_decide, ret. cbn zeta.
  destruct (PyStr.member _ _); reflexivity.
Qed.

Lemma analysis_team_dispatches st k :
  Hierarchical.last_named (messages st) "top_supervisor" = true ->
  Hierarchical.analysis_team_supervisor caps st k =
    (let choice := PyStr.lower (PyStr.strip
                     (decide caps "analysis_team" (decisions k))) in
     let choice :=
       if PyStr.member choice ["analyst"; "calculator"; "visualizer"]
       then choice else "analyst" in
     {| new_messages :=
          [AIMessage ("分析团队接收任务，分配给" +:+ choice)
                     "analysis_supervisor"];
        new_next := Some choice |}, asked k).
Proof.
  intros Hl. unfold Hierarchical.analysis_team_supervisor.
  rewrite Hl. unfold bind, ask_decide, ret. cbn zeta.
  destruct (PyStr.member _ _); reflexivity.
Qed.

(** The hub of the supervisor graph on a user turn. *)
Lemma hub_user_fallback g st k m v :
  Supervisor.graph caps = Some g ->
  last (messages st) = Some m ->
  named_in m ["chatbot"; "searcher"; "coder"] = false ->
  PyStr.lower (PyStr.strip (decide caps "supervisor" (decisions k)))
    ∉ allowed_targets (builder g) "supervisor" ->
  let target := fallback_policy hub_rules "chat"
                  (PyStr.lower (content m)) in
  step g {| current := "supervisor"; state := st; calls := k;
            visited := v |} =
  Running {| current := target; state := merge st (only_next target);
             calls := asked k; visited := v ++ ["supervisor"] |}.
Proof.
  intros Hg Hl Hn Hout target.
  pose proof (supervisor_user_turn caps st k m Hl Hn) as Hu.
  cbn zeta in Hu.
  rewrite (supervisor_allowed_targets caps g Hg) in Hout.
  rewrite (outside_allowed _ Supervisor.members _
             (union_subseteq_l _ _) Hout) in Hu.
  fold target in Hu.
  assert (target = "chat" \/ target = "coder" \/ target = "searcher" \/
          target = END) as Ht.
  { subst target. unfold fallback_policy, hub_rules, first_match.
    repeat destruct (PyStr.any_in _ _); tauto. }
  rewrite (supervisor_step_hub caps g Hg st k v _ _ target Hu eq_refl Ht).
  rewrite bool_decide_eq_false_2; [reflexivity|].
  subst target. unfold fallback_policy, hub_rules, first_match.
  repeat destruct (PyStr.any_in _ _); discriminate.
Qed.

End Fallback.

Section FallbackSites.

Context `{PyStr.Methods} (caps : Capabilities).

(** The hub of the supervisor graph on a worker's report: no keyword rule
    is configured, the default is the terminal sentinel. *)
Lemma hub_report_fallback g st k m v :
  Supervisor.graph caps = Some g ->
  last (messages st) = Some m ->
  named_in m ["chatbot"; "searcher"; "coder"] = true ->
  PyStr.member
    (PyStr.upper (PyStr.strip (decide caps "supervisor" (decisions k))))
    ["CHAT"; "CODER"; "SEARCHER"] = false ->
  let target := fallback_policy [] END (content m) in
  step g {| current := "supervisor"; state := st; calls := k;
            visited := v |} =
  Finished (merge st (only_next target)) (v ++ ["supervisor"]).
Proof.
  intros Hg Hl Hn Hout target.
  pose proof (supervisor_report_turn caps st k m Hl Hn) as Hu.
  cbn zeta in Hu. rewrite Hout in Hu.
  exact (supervisor_step_hub caps g Hg st k v _ _ END Hu eq_refl
           (or_intror (or_intror (or_intror eq_refl)))).
Qed.

(** The root of the hierarchy: no keyword rule, the default is the
    research team. *)
Lemma root_fallback g st k v :
  Hierarchical.hierarchical_graph caps = Some g ->
  PyStr.lower (PyStr.strip (decide caps "top_supervisor" (decisions k)))
    ∉ allowed_targets (builder g) "top_supervisor" ->
  let target := fallback_policy [] "research_team"
                  (last_content (messages st)) in
  let st' := merge st (Hierarchical.top_level_supervisor caps st k).1 in
  new_next (Hierarchical.top_level_supervisor caps st k).1 = Some target /\
  step g {| current := "top_supervisor"; state := st; calls := k;
            visited := v |} =
  if has_report (messages st)
  then Finished st' (v ++ ["top_supervisor"])
  else Running {| current := target; state := st'; calls := asked k;
                  visited := v ++ ["top_supervisor"] |}.
Proof.
  intros Hg Hout target st'.
  destruct (hierarchical_allowed_targets caps g Hg) as (Ha & _).
  rewrite Ha in Hout.
  assert (named_team caps k = target) as Hnamed.
  { unfold named_team.
    by rewrite (outside_allowed _ Hierarchical.valid_teams _
                  (union_subseteq_l _ _) Hout). }
  split.
  - destruct (top_level_supervisor_spec caps st k) as (task & ->).
    cbn [fst new_next]. by rewrite Hnamed.
  - subst st'. rewrite (root_step caps g Hg), Hnamed. reflexivity.
Qed.

(** The teams called by the root: no keyword rule, the default is the
    first worker of the team. *)
Lemma research_team_fallback g st k v :
  Hierarchical.hierarchical_graph caps = Some g ->
  Hierarchical.last_named (messages st) "top_supervisor" = true ->
  PyStr.lower (PyStr.strip (decide caps "research_team" (decisions k)))
    ∉ allowed_targets (builder g) "research_team" ->
  let target := fallback_policy [] "researcher"
                  (last_content (messages st)) in
  step g {| current := "research_team"; state := st; calls := k;
            visited := v |} =
  Running {| current := target;
             state := merge st
                        {| new_messages :=
                             [AIMessage ("研究团队接收任务，分配给" +:+ target)
                                        "research_supervisor"];
                           new_next := Some target |};
             calls := asked k; visited := v ++ ["research_team"] |}.
Proof.
  intros Hg Hl Hout target.
  destruct (hierarchical_allowed_targets caps g Hg) as (_ & Ha & _).
  rewrite Ha in Hout.
  destruct (hierarchical_graph_supervisors caps g Hg) as (_ & _ & N & _).
  destruct (hierarchical_graph_branches caps g Hg) as (_ & B & _).
  pose proof (research_team_dispatches caps st k Hl) as Hu.
  cbn zeta in Hu.
  rewrite (outside_allowed _ _ _ (union_subseteq_l _ _) Hout) in Hu.
  exact (team_step_down g _ _ _ st k v _ _ "researcher" N B Hu eq_refl
           ltac:(discriminate) ltac:(discriminate) eq_refl).
Qed.

Lemma analysis_team_fallback g st k v :
  Hierarchical.hierarchical_graph caps = Some g ->
  Hierarchical.last_named (messages st) "top_supervisor" = true ->
  PyStr.lower (PyStr.strip (decide caps "analysis_team" (decisions k)))
    ∉ allowed_targets (builder g) "analysis_team" ->
  let target := fallback_policy [] "analyst"
                  (last_content (messages st)) in
  step g {| current := "analysis_team"; state := st; calls := k;
            visited := v |} =
  Running {| current := target;
             state := merge st
                        {| new_messages :=
                             [AIMessage ("分析团队接收任务，分配给" +:+ target)
                                        "analysis_supervisor"];
                           new_next := Some target |};
             calls := asked k; visited := v ++ ["analysis_team"] |}.
Proof.
  intros Hg Hl Hout target.
  destruct (hierarchical_allowed_targets caps g Hg) as (_ & _ & Ha & _).
  rewrite Ha in Hout.
  destruct (hierarchical_graph_supervisors caps g Hg)
    as (_ & _ & _ & N & _).
  destruct (hierarchical_graph_branches caps g Hg) as (_ & _ & B & _).
  pose proof (analysis_team_dispatches caps st k Hl) as Hu.
  cbn zeta in Hu.
  rewrite (outside_allowed _ _ _ (union_subseteq_l _ _) Hout) in Hu.
  exact (team_step_down g _ _ _ st k v _ _ "analyst" N B Hu eq_refl
           ltac:(discriminate) ltac:(discriminate) eq_refl).
Qed.

Lemma execution_team_fallback g st k v :
  Hierarchical.hierarchical_graph caps = Some g ->
  Hierarchical.last_named (messages st) "top_supervisor" = true ->
  PyStr.lower (PyStr.strip (decide caps "execution_team" (decisions k)))
    ∉ allowed_targets (builder g) "execution_team" ->
  let target := fallback_policy [] "coder"
                  (last_content (messages st)) in
  step g {| current := "execution_team"; state := st; calls := k;
            visited := v |} =
  Running {| current := target;
             state := merge st
                        {| new_messages :=
                             [AIMessage ("执行团队接收任务，分配给" +:+ target)
                                        "execution_supervisor"];
                           new_next := Some target |};
             calls := asked k; visited := v ++ ["execution_team"] |}.
Proof.
  intros Hg Hl Hout target.
  destruct (hierarchical_allowed_targets caps g Hg) as (_ & _ & _ & Ha).
  rewrite Ha in Hout.
  destruct (hierarchical_graph_supervisors caps g Hg)
    as (_ & _ & _ & _ & N).
  destruct (hierarchical_graph_branches caps g Hg) as (_ & _ & _ & B).
  pose proof (execution_team_dispatches caps st k Hl) as Hu.
  cbn zeta in Hu.
  rewrite (outside_allowed _ _ _ (union_subseteq_l _ _) Hout) in Hu.
  exact (team_step_down g _ _ _ st k v _ _ "coder" N B Hu eq_refl
           ltac:(discriminate) ltac:(discriminate) eq_refl).
Qed.

End FallbackSites.

(** C2 — A decision whose normalised token is outside the allowed targets of
    the node's conditional edge never makes a turn fail.  At every decision
    site the node routes by the two-tier policy: the first keyword rule that
    matches the originating message content, else the static default.  The
    hub of the supervisor graph on a user turn has the two keyword rules
    (search, then code) and the default chat; the other sites configure no
    rule and go to their default: the terminal sentinel for the hub on a
    worker's report, the research team for the root of the hierarchy, the
    first worker for a team. *)
Theorem out_of_set_decision_falls_back `{PyStr.Methods}
    (caps : Capabilities) (st : AgentState) (k : Calls) (v : list string) :
  let token node :=
    PyStr.lower (PyStr.strip (decide caps node (decisions k))) in
  let called_by_root :=
    Hierarchical.last_named (messages st) "top_supervisor" = true in
  (forall g m,
     Supervisor.graph caps = Some g ->
     last (messages st) = Some m ->
     named_in m ["chatbot"; "searcher"; "coder"] = false ->
     token "supervisor" ∉ allowed_targets (builder g) "supervisor" ->
     let target := fallback_policy hub_rules "chat"
                     (PyStr.lower (content m)) in
     step g {| current := "supervisor"; state := st; calls := k;
               visited := v |} =
     Running {| current := target; state := merge st (only_next target);
                calls := asked k; visited := v ++ ["supervisor"] |}) /\
  (forall g m,
     Supervisor.graph caps = Some g ->
     last (messages st) = Some m ->
     named_in m ["chatbot"; "searcher"; "coder"] = true ->
     PyStr.member
       (PyStr.upper (PyStr.strip (decide caps "supervisor" (decisions k))))
       ["CHAT"; "CODER"; "SEARCHER"] = false ->
     let target := fallback_policy [] END (content m) in
     step g {| current := "supervisor"; state := st; calls := k;
               visited := v |} =
     Finished (merge st (only_next target)) (v ++ ["supervisor"])) /\
  (forall g,
     Hierarchical.hierarchical_graph caps = Some g ->
     token "top_supervisor" ∉ allowed_targets (builder g) "top_supervisor" ->
     let target := fallback_policy [] "research_team"
                     (last_content (messages st)) in
     let st' := merge st (Hierarchical.top_level_supervisor caps st k).1 in
     new_next (Hierarchical.top_level_supervisor caps st k).1 = Some target /\
     step g {| current := "top_supervisor"; state := st; calls := k;
               visited := v |} =
     if has_report (messages st)
     then Finished st' (v ++ ["top_supervisor"])
     else Running {| current := target; state := st'; calls := asked k;
                     visited := v ++ ["top_supervisor"] |}) /\
  (forall g,
     Hierarchical.hierarchical_graph caps = Some g -> called_by_root ->
     Forall (fun '(team, default, notice, author) =>
               token team ∉ allowed_targets (builder g) team ->
               let target := fallback_policy [] default
                               (last_content (messages st)) in
               step g {| current := team; state := st; calls := k;
                         visited := v |} =
               Running {| current := target;
                          state := merge st
                                     {| new_messages :=
                                          [AIMessage (notice +:+ target) author];
                                        new_next := Some target |};
                          calls := asked k; visited := v ++ [team] |})
            [("research_team", "researcher", "研究团队接收任务，分配给",
              "research_supervisor");
             ("analysis_team", "analyst", "分析团队接收任务，分配给",
              "analysis_supervisor");
             ("execution_team", "coder", "执行团队接收任务，分配给",
              "execution_supervisor")]).
Proof.
  intros token called_by_root.
  split; [intros g m; exact (hub_user_fallback caps g st k m v)|].
  split; [intros g m; exact (hub_report_fallback caps g st k m v)|].
  split; [intros g; exact (root_fallback caps g st k v)|].
  intros g Hg Hl. repeat constructor.
  - exact (research_team_fallback caps g st k v Hg Hl).
  - exact (analysis_team_fallback caps g st k v Hg Hl).
  - exact (execution_team_fallback caps g st k v Hg Hl).
Qed.

Lemma out_of_set_decision_falls_back_witness :
  let caps := constant_caps " Banana " "done" in
  let g := compiled (Supervisor.graph (H := PyStr.ascii_methods) caps) in
  let h := compiled (Hierarchical.hierarchical_graph (H := PyStr.ascii_methods) caps) in
  let ask := initial_state [HumanMessage "Please PLOT the sales figures"] in
  step g (start g ask) =
    Running {| current := "coder"; state := merge ask (only_next "coder");
               calls := asked no_calls; visited := ["supervisor"] |} /\
  new_next (Hierarchical.top_level_supervisor (H := PyStr.ascii_methods)
              caps ask no_calls).1 = Some "research_team" /\
  exists st', step h (start h ask) =
    Running {| current := "research_team"; state := st';
               calls := asked no_calls; visited := ["top_supervisor"] |}.
Proof.
  intros caps g h ask.
  destruct (out_of_set_decision_falls_back (H := PyStr.ascii_methods)
              caps ask no_calls []) as (Hhub & _ & Hroot & _).
  split.
  - apply (Hhub g (HumanMessage "Please PLOT the sales figures"));
      [reflexivity..|].
    vm_compute. intros Hin. discriminate Hin.
  - destruct (Hroot h eq_refl) as (Hhint & Hstep).
    + vm_compute. intros Hin. discriminate Hin.
    + split; [exact Hhint|]. eexists. exact Hstep.
Defined.

(** * Further properties *)

(** ** Further properties of the supervisor topology *)

Section SupervisorMore.

Context `{PyStr.Methods} (caps : Capabilities).

Lemma supervisor_compiled :
  Supervisor.graph caps = Some (compiled (Supervisor.graph caps)).
Proof. reflexivity. Qed.

(** The target of the fallback at the hub is a worker. *)
Lemma hub_fallback_worker text :
  let target := fallback_policy hub_rules "chat" text in
  target = "chat" \/ target = "coder" \/ target = "searcher".
Proof.
  unfold fallback_policy, hub_rules, first_match.
  repeat destruct (PyStr.any_in _ _); tauto.
Qed.

Lemma member_workers token :
  PyStr.member token Supervisor.members = true ->
  token = "chat" \/ token = "coder" \/ token = "searcher".
Proof.
  unfold PyStr.member, Supervisor.members. intros Hm.
  apply bool_decide_eq_true in Hm.
  rewrite !elem_of_cons, elem_of_nil in Hm. tauto.
Qed.

Lemma worker_visits_snoc trace node :
  worker_visits (trace ++ [node]) =
  worker_visits trace + (if bool_decide (node = "supervisor") then 0 else 1).
Proof.
  unfold worker_visits. rewrite filter_app, length_app. f_equal.
  rewrite filter_cons, filter_nil.
  case_bool_decide; case_decide; simpl; congruence.
Qed.

(** With a [lower] that turns the three upper-case worker names into the
    names of the workers, the hint of the hub is a worker or the terminal
    sentinel, and the hub calls no action. *)
Lemma hub_target st k :
  PyStr.lower "CHAT" = "chat" ->
  PyStr.lower "CODER" = "coder" ->
  PyStr.lower "SEARCHER" = "searcher" ->
  exists target k',
    Supervisor.supervisor caps st k = (only_next target, k') /\
    actions k' = actions k /\
    (target = "chat" \/ target = "coder" \/ target = "searcher" \/
     target = END).
Proof.
  intros L1 L2 L3.
  destruct (last (messages st)) as [m|] eqn:Hl.
  - destruct (named_in m ["chatbot"; "searcher"; "coder"]) eqn:Hn.
    + rewrite (supervisor_report_turn caps st k m Hl Hn). cbn zeta.
      eexists _, _. split; [reflexivity|]. split; [reflexivity|].
      destruct (PyStr.member _ _) eqn:E; [|tauto].
      unfold PyStr.member in E. apply bool_decide_eq_true in E.
      rewrite !elem_of_cons, elem_of_nil in E.
      destruct E as [->|[->|[->|[]]]]; rewrite ?L1, ?L2, ?L3; tauto.
    + rewrite (supervisor_user_turn caps st k m Hl Hn). cbn zeta.
      eexists _, _. split; [reflexivity|]. split; [reflexivity|].
      destruct (PyStr.member _ Supervisor.members) eqn:E.
      * apply member_workers in E. tauto.
      * pose proof (hub_fallback_worker (PyStr.lower (content m))) as Hf.
        cbn zeta in Hf. tauto.
  - unfold Supervisor.supervisor. rewrite Hl.
    eexists _, _. split; [reflexivity|]. split; [reflexivity|]. tauto.
Qed.

End SupervisorMore.

Section SupervisorTurns.

Context `{PyStr.Methods} (caps : Capabilities).
Context (g : CompiledGraph) (Hg : Supervisor.graph caps = Some g).

(** A turn at the hub appends nothing and calls no action; it ends the run
    or hands over to a worker, and does not fail. *)
Lemma hub_turn st k v :
  PyStr.lower "CHAT" = "chat" ->
  PyStr.lower "CODER" = "coder" ->
  PyStr.lower "SEARCHER" = "searcher" ->
  match step g {| current := "supervisor"; state := st; calls := k;
                  visited := v |} with
  | Running c =>
      (current c = "chat" \/ current c = "coder" \/ current c = "searcher") /\
      messages (state c) = messages st /\
      visited c = v ++ ["supervisor"] /\
      actions (calls c) = actions k
  | Finished st' trace =>
      messages st' = messages st /\ trace = v ++ ["supervisor"]
  | Failed _ => False
  end.
Proof.
  intros L1 L2 L3.
  destruct (hub_target caps st k L1 L2 L3) as (target & k' & Hu & Hk & Ht).
  rewrite (supervisor_step_hub caps g Hg st k v _ _ target Hu eq_refl Ht).
  assert (messages st ++ [] = messages st) as Hnil by apply app_nil_r.
  destruct Ht as [->|[->|[->| ->]]];
    [rewrite bool_decide_eq_false_2 by discriminate..
    |rewrite bool_decide_eq_true_2 by reflexivity];
    cbn [current state calls visited merge messages new_messages only_next];
    rewrite Hnil; tauto.
Qed.

(** A turn at a worker appends one message and goes back to the hub. *)
Lemma worker_turn node st k v :
  node = "chat" \/ node = "coder" \/ node = "searcher" ->
  exists m,
    step g {| current := node; state := st; calls := k; visited := v |} =
    Running {| current := "supervisor";
               state := {| messages := messages st ++ [m]; next := next st |};
               calls := acted k; visited := v ++ [node] |}.
Proof.
  destruct (supervisor_step_worker caps g Hg) as (S1 & S2 & S3).
  intros [->|[->| ->]]; eexists; [apply S1|apply S2|apply S3].
Qed.

End SupervisorTurns.

Section SupervisorInvariant.

Context `{PyStr.Methods} (caps : Capabilities).
Context (g : CompiledGraph) (Hg : Supervisor.graph caps = Some g).

Lemma supervisor_run_balanced base n c :
  PyStr.lower "CHAT" = "chat" ->
  PyStr.lower "CODER" = "coder" ->
  PyStr.lower "SEARCHER" = "searcher" ->
  balanced base c ->
  match run_for g n c with
  | Running c' =>
      balanced base c' /\ length (visited c') = length (visited c) + n
  | Finished st' trace =>
      length (messages st') = base + worker_visits trace /\
      length trace = 2 * worker_visits trace + 1 /\
      length trace <= length (visited c) + n
  | Failed _ => False
  end.
Proof.
  intros L1 L2 L3. revert c. induction n as [|n IH]; intros c Hc.
  - simpl. split; [exact Hc|lia].
  - simpl. destruct c as [node st k v].
    destruct Hc as (Hm & Ha & [(Hn & Hl)|(Hn & Hl)]);
      cbn [current state calls visited] in *.
    + subst node. pose proof (hub_turn caps g Hg st k v L1 L2 L3) as Ht.
      destruct (step g _) as [c'|st' tr|e]; [|..|exact Ht].
      * destruct Ht as (Hcur & Hmsg & Hvis & Hact).
        assert (balanced base c') as Hc'.
        { unfold balanced. rewrite Hmsg, Hvis, Hact, worker_visits_snoc.
          rewrite bool_decide_eq_true_2 by reflexivity.
          rewrite length_app. simpl.
          split; [lia|]. split; [lia|]. right. split; [exact Hcur|lia]. }
        specialize (IH c' Hc'). rewrite Hvis, length_app in IH. simpl in IH.
        destruct (run_for g n c') as [c''|st'' tr|e]; [|..|exact IH].
        -- split; [tauto|lia].
        -- split; [tauto|]. split; [tauto|lia].
      * destruct Ht as (-> & ->). rewrite worker_visits_snoc.
        rewrite bool_decide_eq_true_2 by reflexivity.
        rewrite length_app. simpl. lia.
    + destruct (worker_turn caps g Hg node st k v Hn) as (m & ->).
      assert (bool_decide (node = "supervisor") = false) as Hns
        by (apply bool_decide_eq_false_2;
            destruct Hn as [->|[->| ->]]; discriminate).
      match goal with
      | |- context [run_for g n ?c'] =>
          assert (balanced base c') as Hc'; [|specialize (IH c' Hc')]
      end.
      { unfold balanced. cbn [current state calls visited messages acted actions].
        rewrite worker_visits_snoc, Hns, !length_app. simpl.
        split; [lia|]. split; [lia|]. left. split; [reflexivity|lia]. }
      cbn [visited] in IH. rewrite length_app in IH. simpl in IH.
      match goal with
      | |- context [run_for g n ?c'] =>
          destruct (run_for g n c') as [c''|st'' tr|e]; [|..|exact IH]
      end.
      * split; [tauto|lia].
      * split; [tauto|]. split; [tauto|lia].
Qed.

End SupervisorInvariant.



(** X2 — On an empty message history the hub of the supervisor graph asks
    for no decision and starts the conversation with the chat worker: the
    first two turns are hub and chat, and leave the chat answer as the only
    message, with one action and no decision called. *)
Theorem supervisor_empty_history_starts_chat `{PyStr.Methods}
    (caps : Capabilities) (hint : option string) :
  let g := compiled (Supervisor.graph caps) in
  run_for g 2 (start g {| messages := []; next := hint |}) =
  Running {| current := "supervisor";
             state := {| messages := [AIMessage (act caps "chat" 0) "chatbot"];
                         next := Some "chat" |};
             calls := {| decisions := 0; actions := 1 |};
             visited := ["supervisor"; "chat"] |}.
Proof.
  intros g. pose proof (supervisor_compiled caps) as Hg. fold g in Hg.
  clearbody g.
  destruct (supervisor_graph_nodes caps g Hg) as (He & _).
  destruct (supervisor_step_worker caps g Hg) as (Hchat & _).
  unfold start. rewrite He.
  pose proof (supervisor_step_hub caps g Hg
                {| messages := []; next := hint |} no_calls [] _ _ "chat"
                (supervisor_empty caps {| messages := []; next := hint |}
                   no_calls eq_refl)
                eq_refl (or_introl eq_refl)) as S1.
  rewrite bool_decide_eq_false_2 in S1 by discriminate.
  rewrite (run_for_running g 1 _ _ S1).
  rewrite (run_for_running g 0 _ _ (Hchat _ _ _)).
  reflexivity.
Qed.

(** X3 — A user turn always reaches a worker.  When the most recent message
    is not a worker's, the hub of the supervisor graph asks one decision and
    hands over to chat, coder or searcher, whatever the decision answers:
    the turn never fails and never ends the run, not even on the answer
    FINISH. *)
Theorem supervisor_user_turn_reaches_worker `{PyStr.Methods}
    (caps : Capabilities) (st : AgentState) (k : Calls) (v : list string)
    (m : Message) :
  last (messages st) = Some m ->
  named_in m ["chatbot"; "searcher"; "coder"] = false ->
  let g := compiled (Supervisor.graph caps) in
  exists worker,
    worker ∈ Supervisor.members /\
    step g {| current := "supervisor"; state := st; calls := k;
              visited := v |} =
    Running {| current := worker; state := merge st (only_next worker);
               calls := asked k; visited := v ++ ["supervisor"] |}.
Proof.
  intros Hl Hn g. pose proof (supervisor_compiled caps) as Hg. fold g in Hg.
  clearbody g.
  pose proof (supervisor_user_turn caps st k m Hl Hn) as Hu. cbn zeta in Hu.
  set (token := PyStr.lower (PyStr.strip _)) in Hu.
  set (target := if PyStr.member token Supervisor.members then token
                 else fallback_policy hub_rules "chat" _) in Hu.
  assert (target = "chat" \/ target = "coder" \/ target = "searcher") as Ht.
  { subst target. destruct (PyStr.member token Supervisor.members) eqn:E.
    - by apply member_workers.
    - apply hub_fallback_worker. }
  clearbody target. exists target. split.
  - unfold Supervisor.members. rewrite !elem_of_cons. tauto.
  - rewrite (supervisor_step_hub caps g Hg st k v _ _ target Hu eq_refl
               ltac:(tauto)).
    rewrite bool_decide_eq_false_2; [reflexivity|].
    destruct Ht as [->|[->| ->]]; discriminate.
Qed.

Lemma supervisor_user_turn_reaches_worker_witness :
  let caps := constant_caps "FINISH" "done" in
  let g := compiled (Supervisor.graph (H := PyStr.ascii_methods) caps) in
  exists worker,
    worker ∈ Supervisor.members /\
    step g (start g (initial_state [HumanMessage "bye"])) =
    Running {| current := worker;
               state := merge (initial_state [HumanMessage "bye"])
                              (only_next worker);
               calls := asked no_calls; visited := [] ++ ["supervisor"] |}.
Proof.
  intros caps g.
  exact (supervisor_user_turn_reaches_worker (H := PyStr.ascii_methods) caps
           (initial_state [HumanMessage "bye"]) no_calls []
           (HumanMessage "bye") eq_refl eq_refl).
Defined.

(** X4 — A turn at the hub of the supervisor graph never fails.  With a
    [lower] that turns the three upper-case worker names into the names of
    the workers, the hint the hub returns on any state is a worker or the
    terminal sentinel, so the turn hands over to that worker or ends the
    run. *)
Theorem supervisor_hub_never_fails `{PyStr.Methods}
    (caps : Capabilities) (st : AgentState) (k : Calls) (v : list string) :
  PyStr.lower "CHAT" = "chat" ->
  PyStr.lower "CODER" = "coder" ->
  PyStr.lower "SEARCHER" = "searcher" ->
  let g := compiled (Supervisor.graph caps) in
  exists target k',
    Supervisor.supervisor caps st k = (only_next target, k') /\
    (target ∈ Supervisor.members \/ target = END) /\
    step g {| current := "supervisor"; state := st; calls := k;
              visited := v |} =
    if bool_decide (target = END)
    then Finished (merge st (only_next target)) (v ++ ["supervisor"])
    else Running {| current := target; state := merge st (only_next target);
                    calls := k'; visited := v ++ ["supervisor"] |}.
Proof.
  intros L1 L2 L3 g. pose proof (supervisor_compiled caps) as Hg.
  fold g in Hg. clearbody g.
  destruct (hub_target caps st k L1 L2 L3) as (target & k' & Hu & _ & Ht).
  exists target, k'. split; [exact Hu|]. split.
  - unfold Supervisor.members. rewrite !elem_of_cons. tauto.
  - exact (supervisor_step_hub caps g Hg st k v _ _ target Hu eq_refl Ht).
Qed.

Lemma supervisor_hub_never_fails_witness :
  let caps := constant_caps " Searcher " "found it" in
  let g := compiled (Supervisor.graph (H := PyStr.ascii_methods) caps) in
  let st := initial_state [HumanMessage "hi"; AIMessage "hello" "chatbot"] in
  exists target k',
    Supervisor.supervisor (H := PyStr.ascii_methods) caps st no_calls =
      (only_next target, k') /\
    (target ∈ Supervisor.members \/ target = END) /\
    step g {| current := "supervisor"; state := st; calls := no_calls;
              visited := [] |} =
    if bool_decide (target = END)
    then Finished (merge st (only_next target)) ([] ++ ["supervisor"])
    else Running {| current := target; state := merge st (only_next target);
                    calls := k'; visited := [] ++ ["supervisor"] |}.
Proof.
  intros caps g st.
  exact (supervisor_hub_never_fails (H := PyStr.ascii_methods) caps st
           no_calls [] eq_refl eq_refl eq_refl).
Defined.

(** ** Further properties of the network topology *)

Section NetworkMore.

Context `{PyStr.Methods} (caps : Capabilities).

Lemma network_compiled :
  Network.network_graph caps = Some (compiled (Network.network_graph caps)).
Proof. reflexivity. Qed.

Lemma network_allowed_targets g :
  Network.network_graph caps = Some g ->
  Forall (fun node =>
            allowed_targets (builder g) node =
              {["network_chat"; "network_searcher"; "network_coder"; END]} /\
            successors (builder g) node = [])
         ["network_chat"; "network_searcher"; "network_coder"].
Proof.
  intros Hg. destruct (network_graph_edges caps g Hg) as (B1 & B2 & B3).
  apply compiled_is in Hg. subst g.
  repeat constructor; unfold allowed_targets;
    rewrite ?B1, ?B2, ?B3; vm_compute; exact eq_refl.
Qed.

(** What an executor of the mesh returns: one message under the node's
    author tag, one more action counted, and a hint that names another node
    or FINISH. *)
Lemma network_node_result node (action : Executor) st k :
  (node, action) = ("network_chat", Network.network_chat_node caps) \/
  (node, action) = ("network_searcher", Network.network_search_node caps) \/
  (node, action) = ("network_coder", Network.network_code_node caps) ->
  exists text hint,
    new_messages (action st k).1 = [AIMessage text (network_author node)] /\
    new_next (action st k).1 = Some hint /\
    actions (action st k).2 = S (actions k) /\
    (hint = "FINISH" \/
     (hint <> node /\
      (hint = "network_chat" \/ hint = "network_searcher" \/
       hint = "network_coder"))).
Proof.
  intros [E|[E|E]]; injection E as -> ->.
  - unfold Network.network_chat_node, bind, ask_act, ret.
    repeat destruct (PyStr.contains _ _); cbn;
      eexists _, _; (split; [reflexivity|]); (split; [reflexivity|]);
      (split; [reflexivity|]);
      first [by left | right; split; [discriminate|tauto]].
  - unfold Network.network_search_node, bind, ask_act, ask_decide, ret.
    repeat destruct (PyStr.contains _ _); cbn;
      eexists _, _; (split; [reflexivity|]); (split; [reflexivity|]);
      (split; [reflexivity|]);
      first [by left | right; split; [discriminate|tauto]].
  - unfold Network.network_code_node, bind, ask_act, ask_decide, ret.
    repeat destruct (PyStr.contains _ _); cbn;
      eexists _, _; (split; [reflexivity|]); (split; [reflexivity|]);
      (split; [reflexivity|]);
      first [by left | right; split; [discriminate|tauto]].
Qed.

End NetworkMore.

Section NetworkTurns.

Context `{PyStr.Methods} (caps : Capabilities).
Context (g : CompiledGraph) (Hg : Network.network_graph caps = Some g).

(** A turn at a node of the mesh appends one message under the node's author
    tag, counts one action, and either ends the run or moves to another
    node of the mesh. *)
Lemma network_turn c :
  in_mesh c ->
  exists text,
    let msgs := messages (state c) ++
                [AIMessage text (network_author (current c))] in
    (exists st', step g c = Finished st' (visited c ++ [current c]) /\
                 messages st' = msgs) \/
    (exists c', step g c = Running c' /\ in_mesh c' /\
                current c' <> current c /\
                messages (state c') = msgs /\
                visited c' = visited c ++ [current c] /\
                actions (calls c') = S (actions (calls c))).
Proof.
  destruct c as [node st k v]. unfold in_mesh. cbn [current state calls visited].
  intros Hin.
  assert (exists action : Executor,
             (node, action) = ("network_chat", Network.network_chat_node caps) \/
             (node, action) =
               ("network_searcher", Network.network_search_node caps) \/
             (node, action) = ("network_coder", Network.network_code_node caps))
    as (action & Hna).
  { destruct Hin as [->|[->| ->]]; eexists; [left|right; left|right; right];
      reflexivity. }
  destruct (network_node_result caps node action st k Hna)
    as (text & hint & Hm & Hn & Hk & Hh).
  destruct (network_step caps g Hg node action st k v Hna)
    as (hint' & Hn' & _ & Hs).
  rewrite Hn in Hn'. injection Hn' as <-.
  exists text. rewrite Hs. clear Hs.
  destruct Hh as [->|(Hne & Hh)].
  - left. eexists. split; [reflexivity|].
    unfold merge. cbn [messages]. by rewrite Hm.
  - right. rewrite bool_decide_eq_false_2
      by (destruct Hh as [->|[->| ->]]; discriminate).
    eexists. split; [reflexivity|]. cbn [current state calls visited].
    split; [exact Hh|]. split; [exact Hne|].
    split; [unfold merge; cbn [messages]; by rewrite Hm|].
    split; [reflexivity|exact Hk].
Qed.

End NetworkTurns.

Lemma mesh_self_targets `{PyStr.Methods} (caps : Capabilities) g :
  Network.network_graph caps = Some g ->
  "network_chat" ∈ allowed_targets (builder g) "network_chat" /\
  "network_searcher" ∈ allowed_targets (builder g) "network_searcher" /\
  "network_coder" ∈ allowed_targets (builder g) "network_coder".
Proof.
  intros Hg. pose proof (network_allowed_targets caps g Hg) as Ha.
  apply Forall_cons_1 in Ha as [(E1 & _) Ha].
  apply Forall_cons_1 in Ha as [(E2 & _) Ha].
  apply Forall_cons_1 in Ha as [(E3 & _) _].
  rewrite E1, E2, E3. repeat split; vm_compute; reflexivity.
Qed.

(** X5 — The compiled network graph is a full mesh.  It is entered at the
    chat node; each of the three nodes has no unconditional edge and one
    conditional edge whose allowed targets are the three nodes, itself
    included, and the terminal sentinel. *)
Theorem network_is_full_mesh `{PyStr.Methods} (caps : Capabilities) :
  let g := compiled (Network.network_graph caps) in
  Network.network_graph caps = Some g /\
  entry g = "network_chat" /\
  Forall (fun node =>
            allowed_targets (builder g) node =
              {["network_chat"; "network_searcher"; "network_coder"; END]} /\
            node ∈ allowed_targets (builder g) node /\
            successors (builder g) node = [])
         ["network_chat"; "network_searcher"; "network_coder"].
Proof.
  intros g. pose proof (network_compiled caps) as Hg. fold g in Hg.
  clearbody g.
  destruct (network_graph_nodes caps g Hg) as (He & _).
  pose proof (network_allowed_targets caps g Hg) as Ha.
  split; [exact Hg|]. split; [exact He|]. clear Hg He.
  repeat match goal with
         | Ha : Forall _ (_ :: _) |- Forall _ (_ :: _) =>
             apply Forall_cons_1 in Ha; destruct Ha as [(Ea & Es) Ha];
             constructor;
             [split; [exact Ea|]; split; [|exact Es];
              rewrite Ea; vm_compute; reflexivity
             |clear Ea Es]
         end.
  constructor.
Qed.

Section NetworkLog.

Context `{PyStr.Methods} (caps : Capabilities).
Context (g : CompiledGraph) (Hg : Network.network_graph caps = Some g).

Lemma log_follows_snoc base msgs trace text node :
  log_follows base msgs trace ->
  log_follows base (msgs ++ [AIMessage text (network_author node)])
              (trace ++ [node]).
Proof.
  unfold log_follows. intros Hl.
  rewrite !fmap_app, Hl, <- app_assoc. reflexivity.
Qed.

Lemma network_run_log base n c :
  in_mesh c ->
  log_follows base (messages (state c)) (visited c) ->
  actions (calls c) = length (visited c) ->
  match run_for g n c with
  | Running c' =>
      in_mesh c' /\
      log_follows base (messages (state c')) (visited c') /\
      actions (calls c') = length (visited c') /\
      length (visited c') = length (visited c) + n
  | Finished st' trace =>
      log_follows base (messages st') trace /\
      length (visited c) < length trace <= length (visited c) + n
  | Failed _ => False
  end.
Proof.
  revert c. induction n as [|n IH]; intros c Hin Hlog Hact.
  - simpl. repeat split; [done..|lia].
  - simpl. destruct (network_turn caps g Hg c Hin) as (text & Hturn).
    cbn zeta in Hturn.
    destruct Hturn as [(st' & Hs & Hm)|(c' & Hs & Hin' & _ & Hm & Hv & Ha)];
      rewrite Hs.
    + split.
      * rewrite Hm. by apply log_follows_snoc.
      * rewrite length_app. simpl. lia.
    + specialize (IH c' Hin').
      assert (log_follows base (messages (state c')) (visited c')) as Hlog'
        by (rewrite Hm, Hv; by apply log_follows_snoc).
      assert (actions (calls c') = length (visited c')) as Hact'
        by (rewrite Ha, Hv, length_app; simpl; lia).
      specialize (IH Hlog' Hact').
      rewrite Hv, length_app in IH. simpl in IH.
      destruct (run_for g n c') as [c''|st'' tr|e]; [|split; [tauto|lia]|exact IH].
      destruct IH as (? & ? & ? & ?). repeat split; [done..|lia].
Qed.

End NetworkLog.

(** X6 — In the network topology no node routes to itself, although every
    path map declares the node as its own target: a turn at a node ends the
    run or moves to one of the two other nodes, and never fails. *)
Theorem network_never_reenters `{PyStr.Methods}
    (caps : Capabilities) (st : AgentState) (k : Calls) (v : list string) :
  let g := compiled (Network.network_graph caps) in
  Forall (fun node =>
            node ∈ allowed_targets (builder g) node /\
            match step g {| current := node; state := st; calls := k;
                            visited := v |} with
            | Running c => current c <> node /\ in_mesh c
            | Finished _ _ => True
            | Failed _ => False
            end)
         ["network_chat"; "network_searcher"; "network_coder"].
Proof.
  intros g. pose proof (network_compiled caps) as Hg. fold g in Hg.
  clearbody g.
  destruct (mesh_self_targets caps g Hg) as (M1 & M2 & M3).
  assert (forall node,
             in_mesh {| current := node; state := st; calls := k;
                        visited := v |} ->
             match step g {| current := node; state := st; calls := k;
                             visited := v |} with
             | Running c => current c <> node /\ in_mesh c
             | Finished _ _ => True
             | Failed _ => False
             end) as Hturn.
  { intros node Hin.
    destruct (network_turn caps g Hg _ Hin) as (text & Ht). cbn zeta in Ht.
    destruct Ht as [(st' & -> & _)|(c' & -> & Hin' & Hne & _)];
      [exact I|split; [exact Hne|exact Hin']]. }
  repeat constructor; try assumption; apply Hturn; unfold in_mesh; cbn; tauto.
Qed.


(** ** Further properties of the hierarchical topology *)

Section HierarchicalRounds.

Context `{PyStr.Methods} (caps : Capabilities).
Context (g : CompiledGraph)
        (Hg : Hierarchical.hierarchical_graph caps = Some g).

Lemma worker_step_of worker team st k v :
  (worker, team) ∈ staff ->
  step g {| current := worker; state := st; calls := k; visited := v |} =
  Running {| current := team;
             state := merge st
                        {| new_messages :=
                             [AIMessage (act caps worker (actions k)) worker];
                           new_next := None |};
             calls := acted k; visited := v ++ [worker] |}.
Proof.
  intros Hin. pose proof (worker_step caps g Hg st k v) as Hw.
  rewrite Forall_forall in Hw. exact (Hw (worker, team) Hin).
Qed.

(** One round of a team: called by the root it hands over to one of its
    workers, the worker reports back, and the team reports to the root. *)
Lemma team_round team sup (action : Executor) path_map workers notice report :
  node_of (builder g) team = Some action ->
  branch_of (builder g) team =
    Some (Hierarchical.team_supervisor_router, path_map) ->
  path_map !! "top_supervisor" = Some "top_supervisor" ->
  Forall (fun w => path_map !! w = Some w /\ w <> "FINISH" /\ w <> END /\
                   w <> "top_supervisor" /\ (w, team) ∈ staff) workers ->
  (forall st k,
      Hierarchical.last_named (messages st) "top_supervisor" = true ->
      exists w, w ∈ workers /\
                action st k =
                ({| new_messages := [AIMessage (notice +:+ w) sup];
                    new_next := Some w |}, asked k)) ->
  (forall st k,
      Hierarchical.last_named (messages st) "top_supervisor" = false ->
      action st k =
      ({| new_messages := [AIMessage report sup];
          new_next := Some "FINISH" |}, k)) ->
  forall st k v,
    Hierarchical.last_named (messages st) "top_supervisor" = true ->
    exists w st1 st3,
      (w, team) ∈ staff /\
      step g {| current := team; state := st; calls := k; visited := v |} =
        Running {| current := w; state := st1; calls := asked k;
                   visited := v ++ [team] |} /\
      messages st1 = messages st ++ [AIMessage (notice +:+ w) sup] /\
      run_for g 3 {| current := team; state := st; calls := k;
                     visited := v |} =
        Running {| current := "top_supervisor"; state := st3;
                   calls := acted (asked k);
                   visited := ((v ++ [team]) ++ [w]) ++ [team] |} /\
      messages st3 =
        messages st ++ [AIMessage (notice +:+ w) sup;
                        AIMessage (act caps w (actions k)) w;
                        AIMessage report sup].
Proof.
  intros Hn Hb Hup Hws Hdown Hrep st k v Hl.
  destruct (Hdown st k Hl) as (w & Hw & Ha).
  rewrite Forall_forall in Hws.
  destruct (Hws w Hw) as (Hpw & Hwf & Hwe & Hwt & Hstaff).
  pose proof (team_step_down g team action path_map st k v _ _ w
                Hn Hb Ha eq_refl Hwf Hwe Hpw) as S1.
  set (st1 := merge st {| new_messages := [AIMessage (notice +:+ w) sup];
                           new_next := Some w |}) in S1.
  pose proof (worker_step_of w team st1 (asked k) (v ++ [team]) Hstaff) as S2.
  set (st2 := merge st1 _) in S2.
  assert (Hierarchical.last_named (messages st2) "top_supervisor" = false)
    as Hl2.
  { subst st2 st1. unfold Hierarchical.last_named, merge.
    cbn [messages new_messages]. rewrite last_snoc. cbn [name AIMessage].
    apply bool_decide_eq_false_2. congruence. }
  pose proof (team_step_up g team action path_map st2 (acted (asked k))
                ((v ++ [team]) ++ [w]) _ _ Hn Hb Hup (Hrep st2 _ Hl2) eq_refl)
    as S3.
  eexists w, _, _. split; [exact Hstaff|]. split; [exact S1|].
  split; [reflexivity|]. split.
  - rewrite (run_for_running g 2 _ _ S1), (run_for_running g 1 _ _ S2),
      (run_for_running g 0 _ _ S3). reflexivity.
  - subst st2 st1. unfold merge. cbn [messages new_messages actions asked].
    rewrite <- !app_assoc. reflexivity.
Qed.

Lemma choice_in_list choice (names : list string) fallback :
  fallback ∈ names ->
  (if PyStr.member choice names then choice else fallback) ∈ names.
Proof.
  intros Hf. unfold PyStr.member. case_bool_decide; assumption.
Qed.

Ltac in_list := repeat first [apply list_elem_of_here | apply list_elem_of_further].

Ltac team_workers :=
  repeat constructor; repeat split;
  first [discriminate | reflexivity | in_list].

(** The round of each of the three teams. *)
Lemma team_round_any team st k v :
  team = "research_team" \/ team = "analysis_team" \/
  team = "execution_team" ->
  Hierarchical.last_named (messages st) "top_supervisor" = true ->
  exists w st1 st3 m1 m2 m3,
    (w, team) ∈ staff /\
    step g {| current := team; state := st; calls := k; visited := v |} =
      Running {| current := w; state := st1; calls := asked k;
                 visited := v ++ [team] |} /\
    messages st1 = messages st ++ [m1] /\
    run_for g 3 {| current := team; state := st; calls := k; visited := v |} =
      Running {| current := "top_supervisor"; state := st3;
                 calls := acted (asked k);
                 visited := ((v ++ [team]) ++ [w]) ++ [team] |} /\
    messages st3 = messages st ++ [m1; m2; m3] /\
    name m1 = Some (team_author team) /\ name m2 = Some w /\
    name m3 = Some (team_author team).
Proof.
  intros Ht Hl.
  destruct (hierarchical_graph_supervisors caps g Hg)
    as (_ & _ & N1 & N2 & N3).
  destruct (hierarchical_graph_branches caps g Hg) as (_ & B1 & B2 & B3).
  destruct Ht as [->|[->| ->]].
  - destruct (team_round "research_team" "research_supervisor" _ _
                ["researcher"; "searcher"; "data_collector"]
                "研究团队接收任务，分配给" "研究团队任务完成"
                N1 B1 eq_refl ltac:(team_workers)) with (st := st) (k := k)
                (v := v) as (w & st1 & st3 & Hs & S1 & M1 & S3 & M3);
      [..|exact Hl|].
    + intros st0 k0 Hl0. eexists. split; [|].
      2: { rewrite (research_team_dispatches caps st0 k0 Hl0). reflexivity. }
      apply choice_in_list. in_list.
    + intros st0 k0 Hl0.
      exact (proj1 (team_reports caps st0 k0 Hl0)).
    + eexists w, st1, st3, _, _, _. repeat split; eassumption || reflexivity.
  - destruct (team_round "analysis_team" "analysis_supervisor" _ _
                ["analyst"; "calculator"; "visualizer"]
                "分析团队接收任务，分配给" "分析团队任务完成"
                N2 B2 eq_refl ltac:(team_workers)) with (st := st) (k := k)
                (v := v) as (w & st1 & st3 & Hs & S1 & M1 & S3 & M3);
      [..|exact Hl|].
    + intros st0 k0 Hl0. eexists. split; [|].
      2: { rewrite (analysis_team_dispatches caps st0 k0 Hl0). reflexivity. }
      apply choice_in_list. in_list.
    + intros st0 k0 Hl0.
      exact (proj1 (proj2 (team_reports caps st0 k0 Hl0))).
    + eexists w, st1, st3, _, _, _. repeat split; eassumption || reflexivity.
  - destruct (team_round "execution_team" "execution_supervisor" _ _
                ["coder"; "tester"; "deployer"]
                "执行团队接收任务，分配给" "执行团队任务完成"
                N3 B3 eq_refl ltac:(team_workers)) with (st := st) (k := k)
                (v := v) as (w & st1 & st3 & Hs & S1 & M1 & S3 & M3);
      [..|exact Hl|].
    + intros st0 k0 Hl0. eexists. split; [|].
      2: { rewrite (execution_team_dispatches caps st0 k0 Hl0). reflexivity. }
      apply choice_in_list. in_list.
    + intros st0 k0 Hl0.
      exact (proj2 (proj2 (team_reports caps st0 k0 Hl0))).
    + eexists w, st1, st3, _, _, _. repeat split; eassumption || reflexivity.
Qed.

End HierarchicalRounds.

Lemma hierarchical_compiled `{PyStr.Methods} (caps : Capabilities) :
  Hierarchical.hierarchical_graph caps =
  Some (compiled (Hierarchical.hierarchical_graph caps)).
Proof. reflexivity. Qed.

(** X8 — The compiled hierarchical graph is a tree of three tiers.  It is
    entered at the root, whose conditional edge allows the three teams and
    the terminal sentinel; the conditional edge of a team allows its own
    three workers and the root, and neither the terminal sentinel nor the
    worker of another team; each of the nine workers has one outgoing edge,
    the unconditional edge to its own team. *)
Theorem hierarchy_is_three_tier `{PyStr.Methods} (caps : Capabilities) :
  let g := compiled (Hierarchical.hierarchical_graph caps) in
  Hierarchical.hierarchical_graph caps = Some g /\
  entry g = "top_supervisor" /\
  allowed_targets (builder g) "top_supervisor" =
    list_to_set Hierarchical.valid_teams ∪ {[END]} /\
  successors (builder g) "top_supervisor" = [] /\
  Forall (fun team =>
            allowed_targets (builder g) team =
              list_to_set ((filter (fun p => p.2 = team) staff).*1)
                ∪ {["top_supervisor"]} /\
            (END ∉ allowed_targets (builder g) team) /\
            successors (builder g) team = [])
         Hierarchical.valid_teams /\
  Forall (fun '(worker, team) =>
            successors (builder g) worker = [team] /\
            branch_of (builder g) worker = None)
         staff.
Proof.
  intros g. pose proof (hierarchical_compiled caps) as Hg. fold g in Hg.
  clearbody g.
  destruct (hierarchical_graph_supervisors caps g Hg) as (He & _).
  destruct (hierarchical_allowed_targets caps g Hg) as (A0 & A1 & A2 & A3).
  pose proof (hierarchical_graph_workers caps g Hg) as Hw.
  split; [exact Hg|]. split; [exact He|]. split; [exact A0|].
  apply compiled_is in Hg.
  split; [subst g; reflexivity|]. split.
  - repeat constructor; rewrite ?A1, ?A2, ?A3;
      first [subst g; reflexivity | vm_compute; exact eq_refl
            | vm_compute; discriminate].
  - clear Hg. eapply Forall_impl; [exact Hw|].
    intros [worker team] (_ & Hb & Hs). split; assumption.
Qed.

(** X9 — A team of the hierarchy that is called by the root always hands
    over to one of its own workers, whatever the decision answers: the turn
    asks one decision, appends the team supervisor's assignment message,
    never fails, never ends the run and never reaches the worker of another
    team. *)
Theorem team_dispatch_within_team `{PyStr.Methods}
    (caps : Capabilities) (st : AgentState) (k : Calls) (v : list string) :
  Hierarchical.last_named (messages st) "top_supervisor" = true ->
  let g := compiled (Hierarchical.hierarchical_graph caps) in
  Forall (fun team =>
            exists worker st' m,
              (worker, team) ∈ staff /\
              step g {| current := team; state := st; calls := k;
                        visited := v |} =
              Running {| current := worker; state := st'; calls := asked k;
                         visited := v ++ [team] |} /\
              messages st' = messages st ++ [m] /\
              name m = Some (team_author team))
         Hierarchical.valid_teams.
Proof.
  intros Hl g. pose proof (hierarchical_compiled caps) as Hg. fold g in Hg.
  clearbody g.
  assert (forall team,
             team = "research_team" \/ team = "analysis_team" \/
             team = "execution_team" ->
             exists worker st' m,
               (worker, team) ∈ staff /\
               step g {| current := team; state := st; calls := k;
                         visited := v |} =
               Running {| current := worker; state := st'; calls := asked k;
                          visited := v ++ [team] |} /\
               messages st' = messages st ++ [m] /\
               name m = Some (team_author team)) as Hteam.
  { intros team Ht.
    destruct (team_round_any caps g Hg team st k v Ht Hl)
      as (w & st1 & _ & m1 & _ & _ & Hs & S1 & M1 & _ & _ & N1 & _).
    exists w, st1, m1. repeat split; assumption. }
  repeat constructor; apply Hteam; tauto.
Qed.

Lemma team_dispatch_within_team_witness :
  let caps := constant_caps "deployer" "done" in
  let g := compiled (Hierarchical.hierarchical_graph
                       (H := PyStr.ascii_methods) caps) in
  let st := initial_state [HumanMessage "ship it";
                           AIMessage "assigned" "top_supervisor"] in
  Forall (fun team =>
            exists worker st' m,
              (worker, team) ∈ staff /\
              step g {| current := team; state := st; calls := no_calls;
                        visited := [] |} =
              Running {| current := worker; state := st';
                         calls := asked no_calls;
                         visited := [] ++ [team] |} /\
              messages st' = messages st ++ [m] /\
              name m = Some (team_author team))
         Hierarchical.valid_teams.
Proof.
  intros caps g st.
  exact (team_dispatch_within_team (H := PyStr.ascii_methods) caps st
           no_calls [] eq_refl).
Defined.

(** X10 — Every run of the hierarchical graph ends, whatever the
    capabilities answer.  From a state whose history holds a report of a
    team supervisor the root ends the run in one turn.  From any other state
    the run takes exactly five turns: the root, the team it names, one
    worker of that team, the team again, the root again; the log grows by
    the five messages of these nodes, so that the last message of the final
    state is the assignment message of the root, not a result. *)
Theorem hierarchical_run_always_ends `{PyStr.Methods}
    (caps : Capabilities) (st : AgentState) :
  let g := compiled (Hierarchical.hierarchical_graph caps) in
  if has_report (messages st)
  then exists st',
         invoke g (start g st) (Finished st' ["top_supervisor"]) /\
         name <$> messages st' =
           (name <$> messages st) ++ [Some "top_supervisor"]
  else exists worker st',
         let team := named_team caps no_calls in
         (worker, team) ∈ staff /\
         invoke g (start g st)
           (Finished st' ["top_supervisor"; team; worker; team;
                          "top_supervisor"]) /\
         name <$> messages st' =
           (name <$> messages st) ++
           [Some "top_supervisor"; Some (team_author team); Some worker;
            Some (team_author team); Some "top_supervisor"].
Proof.
  intros g. pose proof (hierarchical_compiled caps) as Hg. fold g in Hg.
  clearbody g.
  destruct (hierarchical_graph_supervisors caps g Hg) as (He & _).
  pose proof (root_step caps g Hg st no_calls []) as S1.
  destruct (top_level_supervisor_spec caps st no_calls) as (task1 & Ht1).
  rewrite Ht1 in S1. cbn [fst] in S1.
  destruct (has_report (messages st)) eqn:Hrep.
  - eexists. split.
    + unfold start. rewrite He. apply invoke_finished. exact S1.
    + unfold merge. cbn [messages new_messages]. by rewrite fmap_app.
  - set (st1 := merge st _) in S1.
    assert (Hierarchical.last_named (messages st1) "top_supervisor" = true)
      as Hl1.
    { subst st1. unfold Hierarchical.last_named, merge.
      cbn [messages new_messages]. rewrite last_snoc. reflexivity. }
    destruct (team_round_any caps g Hg (named_team caps no_calls) st1
                (asked no_calls) ([] ++ ["top_supervisor"])
                (named_team_valid caps no_calls) Hl1)
      as (w & _ & st3 & m1 & m2 & m3 & Hs & _ & _ & S3 & M3 & N1 & N2 & N3).
    pose proof (root_step caps g Hg st3 (acted (asked (asked no_calls)))
                  (((([] ++ ["top_supervisor"]) ++
                     [named_team caps no_calls]) ++ [w]) ++
                   [named_team caps no_calls])) as S5.
    destruct (top_level_supervisor_spec caps st3
                (acted (asked (asked no_calls)))) as (task2 & Ht2).
    rewrite Ht2 in S5. cbn [fst] in S5.
    assert (has_report (messages st3) = true) as Hrep3.
    { rewrite M3, has_report_app. apply orb_true_intro. right.
      unfold has_report. cbn [existsb]. unfold named_in at 3. rewrite N3.
      replace (PyStr.member (team_author (named_team caps no_calls))
                 Hierarchical.supervisor_names) with true; [by rewrite !orb_true_r|].
      destruct (named_team_valid caps no_calls) as [->|[->| ->]];
        reflexivity. }
    rewrite Hrep3 in S5.
    exists w. eexists. cbn zeta. split; [exact Hs|]. split.
    + unfold start. rewrite He. apply invoke_run_for. exists 5.
      split; [|reflexivity].
      rewrite (run_for_running g 4 _ _ S1).
      change 4 with (3 + 1).
      assert (forall n m c c', run_for g n c = Running c' ->
                               run_for g (n + m) c = run_for g m c') as Hadd.
      { clear. intros n. induction n as [|n IH]; intros m c c' Hr.
        - simpl in Hr. by injection Hr as ->.
        - simpl in *. destruct (step g c); try discriminate. by apply IH. }
      rewrite (Hadd 3 1 _ _ S3). cbn [run_for]. rewrite S5. reflexivity.
    + unfold merge. cbn [messages new_messages].
      rewrite fmap_app, M3. subst st1. unfold merge.
      cbn [messages new_messages].
      rewrite !fmap_app, <- !app_assoc. cbn. by rewrite N1, N2, N3.
Qed.

(** ** The graph selector *)

(** X11 — The selector offers two graphs and no other.  For any requested
    type, and for a call without argument, [get_graph_by_type] returns a
    compiled graph: the network graph, entered at the chat node of the mesh,
    when the lower-case form of the type is the word network, and the
    supervisor graph, entered at the hub, for every other type; the
    hierarchical graph is never returned. *)
Theorem selector_offers_two_graphs `{PyStr.Methods}
    (caps : Capabilities) (graph_type : option string) :
  let wanted := PyStr.lower (default "supervisor" graph_type) in
  let chosen := Unified.get_graph_by_type caps graph_type in
  exists g,
    graph_object chosen = Some g /\
    chosen <> Unified.hierarchical_graph caps /\
    ((wanted = "network" /\
      chosen = Unified.network_graph caps /\ entry g = "network_chat") \/
     (wanted <> "network" /\
      chosen = Unified.supervisor_graph caps /\ entry g = "supervisor")).
Proof.
  intros wanted chosen. subst chosen. unfold Unified.get_graph_by_type.
  cbn zeta. fold wanted. case_bool_decide as Hw.
  - exists (compiled (Network.network_graph caps)).
    split; [reflexivity|]. split.
    + intros E. apply (f_equal graph_name) in E. discriminate E.
    + left. split; [exact Hw|]. split; reflexivity.
  - exists (compiled (Supervisor.graph caps)).
    split; [reflexivity|]. split.
    + intros E. apply (f_equal graph_name) in E. discriminate E.
    + right. split; [exact Hw|]. split; reflexivity.
Qed.
